(** * fdtd/sources.py: the line source of the FDTD grid

    A shallow embedding of [Source] (construction, [register_grid],
    [_get_location], [update_E], [update_H]) and the properties of the
    line sampler, of the spatial profile and of the per-step injection.

    Conventions of the embedding.
    - Python [int] and the [bd.int] index arrays are [Z].
    - [bd.float] values and Python [float] are [xreal]: a finite value is an
      exact real number (rounding is not modelled), and the three non-finite
      results of IEEE-754 arithmetic (two infinities, not-a-number)
      are kept, with the rules by which NumPy produces and propagates them.
    - The rational intermediate values of [bd.linspace] are [Q], so the line
      sampler evaluates.
    - Where rounding decides a property (the samples of a slanted line, the
      waveform at two time steps), the same expressions are evaluated in
      IEEE-754 binary64 as well, on machine floats: [linspace64],
      [_get_location_with], [waveform64].
    - A raised exception is the [Raise] branch of [Raised]. *)

From Stdlib Require Import ZArith QArith Qround Reals ROrderedType Machin.
From Stdlib Require Import List Lia Lra Bool.
From Stdlib Require PrimFloat FloatOps SpecFloat Uint63.
Import ListNotations.

(** ** Exceptions *)

Inductive exn : Set :=
| IndexError
| ValueError
| ZeroDivisionError
| OverflowError
| AttributeError.

Inductive Raised (A : Type) : Type :=
| Ok (a : A)
| Raise (e : exn).

Arguments Ok {A} a.
Arguments Raise {A} e.

Definition bind {A B : Type} (c : Raised A) (k : A -> Raised B) : Raised B :=
  match c with
  | Ok a => k a
  | Raise e => Raise e
  end.

Notation "'let?' x ':=' c 'in' k" := (bind c (fun x => k))
  (at level 10, x pattern, c at level 100, k at level 200).

Definition raises {A : Type} (c : Raised A) : bool :=
  match c with
  | Ok _ => false
  | Raise _ => true
  end.

(** ** Backend primitives used by the line sampler

    The backend [bd] (fdtd/backend.py) is not among the sources; its array
    primitives are taken with the meaning the specification and NumPy give
    them, in exact arithmetic. *)

(** Modelled from the spec: [bd.linspace(start, stop, num, endpoint=False)],
    the half-open range of [num] evenly spaced samples [start + i * step]
    with [step = (stop - start) / num], start included and stop excluded; a
    negative [num] is a [ValueError].  The samples are exact rationals here;
    [linspace64] below rounds them as binary64 does. *)
Definition linspace (start stop num : Z) : Raised (list Q) :=
  if (num <? 0)%Z then Raise ValueError
  else
    let step := (inject_Z (stop - start) / inject_Z num)%Q in
    Ok (map (fun i : nat => (inject_Z (Z.of_nat i) * step + inject_Z start)%Q)
            (seq 0 (Z.to_nat num))).

(** Modelled from the spec: conversion of one float to [bd.int], which
    truncates: the fractional part is dropped (toward zero). *)
Definition Qtrunc (q : Q) : Z := Z.quot (Qnum q) (Zpos (Qden q)).

(** [bd.array(a, bd.int)] *)
Definition array_int (a : list Q) : list Z := map Qtrunc a.

(** ** Source._get_location *)

Notation point := (Z * Z * Z)%type (only parsing).

Definition span (p0 p1 : point) : Z :=
  let '(x0, y0, z0) := p0 in
  let '(x1, y1, z1) := p1 in
  Z.max (Z.max (Z.abs (x1 - x0)) (Z.abs (y1 - y0))) (Z.abs (z1 - z0)).

Definition _get_location (p0 p1 : point)
  : Raised (list Z * list Z * list Z) :=
  let '(x0, y0, z0) := p0 in
  let '(x1, y1, z1) := p1 in
  let m := Z.max (Z.max (Z.abs (x1 - x0)) (Z.abs (y1 - y0))) (Z.abs (z1 - z0)) in
  let? lx := linspace x0 x1 m in
  let x := array_int lx in
  let? ly := linspace y0 y1 m in
  let y := array_int ly in
  let? lz := linspace z0 z1 m in
  let z := array_int lz in
  Ok (x, y, z).

(** ** Float values *)

Inductive xreal : Type :=
| Fin (r : R)
| PInf
| NInf
| NaN.

Definition xneg (a : xreal) : xreal :=
  match a with
  | Fin r => Fin (- r)
  | PInf => NInf
  | NInf => PInf
  | NaN => NaN
  end.

Definition xadd (a b : xreal) : xreal :=
  match a with
  | NaN => NaN
  | Fin r =>
      match b with
      | Fin s => Fin (r + s)
      | _ => b
      end
  | PInf =>
      match b with
      | NInf | NaN => NaN
      | _ => PInf
      end
  | NInf =>
      match b with
      | PInf | NaN => NaN
      | _ => NInf
      end
  end.

(** An infinity of the given sign times (or divided by) the finite [r];
    [zero] is the result at [r = 0]. *)
Definition xinf_by (positive : bool) (r : R) (zero : xreal) : xreal :=
  match Rcompare r 0 with
  | Eq => zero
  | Gt => if positive then PInf else NInf
  | Lt => if positive then NInf else PInf
  end.

Definition xmul (a b : xreal) : xreal :=
  match a with
  | NaN => NaN
  | Fin r =>
      match b with
      | Fin s => Fin (r * s)
      | PInf => xinf_by true r NaN
      | NInf => xinf_by false r NaN
      | NaN => NaN
      end
  | PInf =>
      match b with
      | Fin s => xinf_by true s NaN
      | PInf => PInf
      | NInf => NInf
      | NaN => NaN
      end
  | NInf =>
      match b with
      | Fin s => xinf_by false s NaN
      | PInf => NInf
      | NInf => PInf
      | NaN => NaN
      end
  end.

(** Array division never raises: a finite value over zero is an infinity
    (zeros carry no sign here; a zero divisor counts as [+0], the only zero the
    divisors of [register_grid] can be), and [0 / 0] is not-a-number. *)
Definition xdiv (a b : xreal) : xreal :=
  match a with
  | NaN => NaN
  | Fin r =>
      match b with
      | Fin s => if Req_dec_T s 0 then xinf_by true r NaN else Fin (r / s)
      | PInf | NInf => Fin 0
      | NaN => NaN
      end
  | PInf =>
      match b with
      | Fin s => xinf_by true s PInf
      | _ => NaN
      end
  | NInf =>
      match b with
      | Fin s => xinf_by false s NInf
      | _ => NaN
      end
  end.

(** [bd.exp] *)
Definition xexp (a : xreal) : xreal :=
  match a with
  | Fin r => Fin (exp r)
  | PInf => PInf
  | NInf => Fin 0
  | NaN => NaN
  end.

(** [a ** 0.5] on a float array: the square root, not-a-number below zero. *)
Definition xsqrt (a : xreal) : xreal :=
  match a with
  | Fin r => if Rlt_dec r 0 then NaN else Fin (sqrt r)
  | PInf => PInf
  | NInf => NaN
  | NaN => NaN
  end.

(** [a ** 2] on floats *)
Definition xsqr (a : xreal) : xreal := xmul a a.

(** The larger of two floats as [ndarray.max] combines them: not-a-number
    wins over everything. *)
Definition xmax (a b : xreal) : xreal :=
  match a with
  | NaN => NaN
  | PInf => match b with NaN => NaN | _ => PInf end
  | NInf => b
  | Fin r =>
      match b with
      | Fin s => Fin (Rmax r s)
      | NInf => a
      | _ => b
      end
  end.

(** [a.max()]; an empty array is a [ValueError]. *)
Definition array_max (a : list xreal) : Raised xreal :=
  match a with
  | [] => Raise ValueError
  | v :: vs => Ok (fold_left xmax vs v)
  end.

(** [a.sum()] *)
Definition array_sum (a : list xreal) : xreal := fold_left xadd a (Fin 0).

(** [bd.array(a, bd.float)] on an integer array *)
Definition array_float (a : list Z) : list xreal := map (fun n => Fin (IZR n)) a.

(** ** Python numbers *)

Inductive Number : Type :=
| PyInt (n : Z)
| PyFloat (f : xreal).

Definition to_float (n : Number) : xreal :=
  match n with
  | PyInt k => Fin (IZR k)
  | PyFloat f => f
  end.

(** [a / b] on Python scalars: a zero divisor raises. *)
Definition py_truediv (a b : xreal) : Raised xreal :=
  match b with
  | Fin s => if Req_dec_T s 0 then Raise ZeroDivisionError else Ok (xdiv a b)
  | _ => Ok (xdiv a b)
  end.

(** [math.sin]: an infinite argument is a [ValueError] (math domain error). *)
Definition py_sin (a : xreal) : Raised xreal :=
  match a with
  | Fin r => Ok (Fin (sin r))
  | NaN => Ok NaN
  | PInf | NInf => Raise ValueError
  end.

(** [int(f)]: truncation toward zero; [int(nan)] is a [ValueError],
    [int(inf)] an [OverflowError]. *)
Definition py_int (a : xreal) : Raised Z :=
  match a with
  | Fin r => Ok (if Rle_dec 0 r then Int_part r else (- Int_part (- r))%Z)
  | NaN => Raise ValueError
  | PInf | NInf => Raise OverflowError
  end.

(** ** The host grid

    Modelled from the spec: the host grid (fdtd/grid.py is not among the
    sources).  The record lists what the source consumes from it: the unit
    resolvers [_handle_time] and [_handle_tuple], the material array
    [inverse_permittivity] and the field array [E], both addressed as
    [x, y, z, component] over [shape] with three components, and the
    counter [timesteps_passed]. *)

Notation cell := (Z * Z * Z * Z)%type (only parsing).

Record Grid : Type := {
  shape : Z * Z * Z;
  E : cell -> xreal;
  inverse_permittivity : cell -> xreal;
  timesteps_passed : Z;
  _handle_time : Number -> Raised Number;
  _handle_tuple : Number * Number * Number -> Raised point
}.

Definition set_E (g : Grid) (E' : cell -> xreal) : Grid :=
  {| shape := shape g;
     E := E';
     inverse_permittivity := inverse_permittivity g;
     timesteps_passed := timesteps_passed g;
     _handle_time := _handle_time g;
     _handle_tuple := _handle_tuple g |}.


(** One integer index on an axis of [n] entries: a negative index counts
    from the end, anything outside [-n .. n-1] is out of bounds. *)
Definition axis_index (n i : Z) : option Z :=
  if ((0 <=? i) && (i <? n))%Z then Some i
  else if ((- n <=? i) && (i <? 0))%Z then Some (i + n)%Z
  else None.

(** The cell addressed by [a[x, y, z, c]]; [IndexError] out of bounds. *)
Definition locate (sh : Z * Z * Z) (x y z c : Z) : Raised cell :=
  let '(nx, ny, nz) := sh in
  match axis_index nx x, axis_index ny y, axis_index nz z, axis_index 3 c with
  | Some i, Some j, Some k, Some l => Ok (i, j, k, l)
  | _, _, _, _ => Raise IndexError
  end.

Definition cell_eqb (a b : cell) : bool :=
  let '(ax, ay, az, ac) := a in
  let '(bx, b_y, bz, bc) := b in
  ((ax =? bx) && (ay =? b_y) && (az =? bz) && (ac =? bc))%Z.

(** [a[c] = v] *)
Definition store (a : cell -> xreal) (c : cell) (v : xreal) : cell -> xreal :=
  fun c' => if cell_eqb c c' then v else a c'.

Definition zip3 (x y z : list Z) : list point := combine (combine x y) z.

(** [a[x, y, z, c]] with the index arrays [x], [y], [z]: one value per
    position, [IndexError] when a position is out of bounds. *)
Fixpoint take (sh : Z * Z * Z) (a : cell -> xreal) (ps : list point) (c : Z)
  : Raised (list xreal) :=
  match ps with
  | [] => Ok []
  | (x, y, z) :: ps' =>
      let? i := locate sh x y z c in
      let? vs := take sh a ps' c in
      Ok (a i :: vs)
  end.

(** [a[i]] on a one-dimensional array and a non-negative [i] *)
Definition item (a : list Z) (i : nat) : Raised Z :=
  match nth_error a i with
  | Some v => Ok v
  | None => Raise IndexError
  end.

(** ** Source *)

(** The attributes of a [Source] object.  [grid] records whether [self.grid]
    is bound; [x], [y], [z], [vect] and [profile] exist on the object from
    [register_grid] on and are empty here before. *)
Record Source : Type := {
  grid : bool;
  period : Number;
  power : xreal;
  phase_shift : xreal;
  p0 : Number * Number * Number;
  p1 : Number * Number * Number;
  x : list Z;
  y : list Z;
  z : list Z;
  vect : list xreal;
  profile : list xreal
}.

(** [Source.__init__] *)
Definition __init__ (p0 p1 : Number * Number * Number)
  (period : Number) (power phase_shift : xreal) : Source :=
  {| grid := false;
     period := period;
     power := power;
     phase_shift := phase_shift;
     p0 := p0;
     p1 := p1;
     x := []; y := []; z := []; vect := []; profile := [] |}.

Definition as_numbers (p : point) : Number * Number * Number :=
  let '(a, b, c) := p in (PyInt a, PyInt b, PyInt c).

(** Squared index distance of every point of the line to the point
    [(xm, ym, zm)], as [bd.float]. *)
Definition distances (x y z : list Z) (xm ym zm : Z) : list xreal :=
  array_float
    (map (fun '(xi, yi, zi) => ((xi - xm) ^ 2 + (yi - ym) ^ 2 + (zi - zm) ^ 2)%Z)
         (zip3 x y z)).

(** [bd.exp(-vect ** 2 / (2 * (0.5 * vect.max()) ** 2))] given [vect.max()] *)
Definition gaussian (vect : list xreal) (vmax : xreal) : list xreal :=
  map (fun v =>
         xexp (xdiv (xneg (xsqr v))
                    (xmul (Fin 2) (xsqr (xmul (Fin 0.5) vmax)))))
      vect.

Definition zip_mul (a b : list xreal) : list xreal :=
  map (fun '(u, v) => xmul u v) (combine a b).

(** [Source.register_grid].  The result is the source after the call; when
    the call raises, the attributes it had already assigned are not tracked. *)
Definition register_grid (self : Source) (g : Grid) : Raised Source :=
  let? period' := _handle_time g (period self) in
  let? p0' := _handle_tuple g (p0 self) in
  let? p1' := _handle_tuple g (p1 self) in
  let? (x, y, z) := _get_location p0' p1' in
  let L := length x in
  let? eps := take (shape g) (inverse_permittivity g) (zip3 x y z) 2 in
  let amplitude := map (fun e => xsqrt (xmul (power self) e)) eps in
  let? xm := item x (L / 2) in
  let? ym := item y (L / 2) in
  let? zm := item z (L / 2) in
  let vect := distances x y z xm ym zm in
  let? vmax := array_max vect in
  let profile := gaussian vect vmax in
  let total := array_sum profile in
  let profile := map (fun w => xdiv w total) profile in
  let profile := zip_mul profile amplitude in
  Ok {| grid := true;
        period := period';
        power := power self;
        phase_shift := phase_shift self;
        p0 := as_numbers p0';
        p1 := as_numbers p1';
        x := x; y := y; z := z;
        vect := vect;
        profile := profile |}.

(** [sin(2 * pi * q / self.period + self.phase_shift)], in exact real
    arithmetic; [waveform64] below rounds the argument as binary64 does. *)
Definition waveform (self : Source) (q : Z) : Raised xreal :=
  let? turns :=
    py_truediv (xmul (xmul (Fin 2) (Fin PI)) (Fin (IZR q)))
               (to_float (period self)) in
  py_sin (xadd turns (phase_shift self)).

(** The loop of [update_E]: [E[x, y, z, 2] += value] for every item in
    turn.  The field after the loop is returned with the exception that
    stopped it, if any. *)
Fixpoint add_values (sh : Z * Z * Z) (field : cell -> xreal)
  (items : list (point * xreal)) : (cell -> xreal) * option exn :=
  match items with
  | [] => (field, None)
  | ((x, y, z), value) :: rest =>
      match locate sh x y z 2 with
      | Raise e => (field, Some e)
      | Ok c => add_values sh (store field c (xadd (field c) value)) rest
      end
  end.

(** [Source.update_E] on the grid [self.grid] refers to. *)
Definition update_E (self : Source) (g : Grid) : Grid * option exn :=
  if negb (grid self) then (g, Some AttributeError)
  else
    let q := timesteps_passed g in
    match waveform self q with
    | Raise e => (g, Some e)
    | Ok w =>
        let vect := map (fun p => xmul p w) (profile self) in
        let '(field, r) :=
          add_values (shape g) (E g)
                     (combine (zip3 (x self) (y self) (z self)) vect) in
        (set_E g field, r)
    end.

(** [Source.update_H]: [pass]. *)
Definition update_H (self : Source) (g : Grid) : Source * Grid * option exn :=
  (self, g, None).

(** ** A concrete host grid and concrete sources *)

(** Modelled from the spec: how the host grid resolves units.  A value in
    grid units (an integer) is passed through; a physical value is taken at
    unit grid spacing and unit time step and rounded to the nearest count. *)
Definition resolve_units (n : Number) : Raised Z :=
  match n with
  | PyInt k => Ok k
  | PyFloat f => py_int (xadd f (Fin 0.5))
  end.

(** A host grid of [nx * ny * nz] cells at rest: zero field, inverse
    permittivity [eps] everywhere, [q] time steps passed. *)
Definition uniform_grid (nx ny nz : Z) (eps : xreal) (q : Z) : Grid :=
  {| shape := (nx, ny, nz);
     E := fun _ => Fin 0;
     inverse_permittivity := fun _ => eps;
     timesteps_passed := q;
     _handle_time := fun t => let? k := resolve_units t in Ok (PyInt k);
     _handle_tuple := fun '(a, b, c) =>
       let? i := resolve_units a in
       let? j := resolve_units b in
       let? k := resolve_units c in
       Ok (i, j, k) |}.

Definition grid_point (a b c : Z) : Number * Number * Number :=
  (PyInt a, PyInt b, PyInt c).

(** The source after [register_grid]; the source itself when the call
    raises. *)
Definition registered (self : Source) (g : Grid) : Source :=
  match register_grid self g with
  | Ok s => s
  | Raise _ => self
  end.

Definition line4 : Source :=
  __init__ (grid_point 0 0 0) (grid_point 4 0 0) (PyInt 4) (Fin 1) (Fin 0).

Definition line2 : Source :=
  __init__ (grid_point 0 0 0) (grid_point 2 0 0) (PyInt 4) (Fin 1) (Fin 0).

Definition line1 : Source :=
  __init__ (grid_point 0 0 0) (grid_point 1 0 0) (PyInt 4) (Fin 1) (Fin 0).

Definition line3 : Source :=
  __init__ (grid_point 0 0 0) (grid_point 3 0 0) (PyInt 4) (Fin 1) (Fin 0).

(** Four cells of vacuum in a row, one time step passed. *)
Definition grid4 : Grid := uniform_grid 4 1 1 (Fin 1) 1.

(** The same source with another period and power. *)
Definition reconfigure (self : Source) (period' : Number) (power' : xreal)
  : Source :=
  {| grid := grid self;
     period := period';
     power := power';
     phase_shift := phase_shift self;
     p0 := p0 self;
     p1 := p1 self;
     x := x self; y := y self; z := z self;
     vect := vect self;
     profile := profile self |}.

(** ** Reference definitions, in the words of the specification *)


(** The same sample in integer arithmetic ([÷] truncates toward zero). *)
Definition sample (a0 a1 L : Z) (i : nat) : Z :=
  ((a0 * L + Z.of_nat i * (a1 - a0)) ÷ L)%Z.

Definition origin : point := (0, 0, 0)%Z.

(** Squared Euclidean distance in index space. *)
Definition sq_dist (p c : point) : Z :=
  let '(px, py, pz) := p in
  let '(cx, cy, cz) := c in
  ((px - cx) ^ 2 + (py - cy) ^ 2 + (pz - cz) ^ 2)%Z.

(** [d_i]: from coordinate [i] to the coordinate at index [L // 2]. *)
Definition spec_d (coords : list point) (i : nat) : Z :=
  sq_dist (nth i coords origin) (nth (length coords / 2) coords origin).

(** [max_j d_j] *)
Definition spec_dmax (coords : list point) : Z :=
  fold_right Z.max 0%Z (map (spec_d coords) (seq 0 (length coords))).

Definition Rsum (l : list R) : R := fold_right Rplus 0%R l.

(** [w_i = exp(-d_i^2 / (2 * (0.5 * max_j d_j)^2))] *)
Definition spec_w (coords : list point) (i : nat) : R :=
  exp (- IZR (spec_d coords i) ^ 2 / (2 * (0.5 * IZR (spec_dmax coords)) ^ 2)).

(** [w_i / sum_j w_j] *)
Definition spec_weight (coords : list point) (i : nat) : R :=
  (spec_w coords i / Rsum (map (spec_w coords) (seq 0 (length coords))))%R.

(** [profile_i = w_i * sqrt(power * inverse_permittivity_i)] *)
Definition spec_profile (coords : list point) (power eps : xreal) (i : nat)
  : xreal :=
  xmul (Fin (spec_weight coords i)) (xsqrt (xmul power eps)).


(** A line along an axis or a diagonal: on every axis the endpoints differ
    by the whole span or not at all. *)
Definition straight (p q : point) : Prop :=
  let '(a0, b0, c0) := p in
  let '(a1, b1, c1) := q in
  let m := span p q in
  (Z.abs (a1 - a0) = m \/ a1 = a0) /\
  (Z.abs (b1 - b0) = m \/ b1 = b0) /\
  (Z.abs (c1 - c0) = m \/ c1 = c0).

(** The cell a point of the line addresses in component 2 of an array. *)
Definition cell_of (sh : Z * Z * Z) (p : point) : Raised cell :=
  let '(px, py, pz) := p in locate sh px py pz 2.

(** Whether the point of an item of the loop addresses the cell [c]. *)
Definition hits (sh : Z * Z * Z) (c : cell) (it : point * xreal) : bool :=
  match cell_of sh (fst it) with
  | Ok c' => cell_eqb c' c
  | Raise _ => false
  end.

(** The values among [items] whose point addresses the cell [c], in the
    order of the loop. *)
Definition contributions (sh : Z * Z * Z) (c : cell)
  (items : list (point * xreal)) : list xreal :=
  map snd (filter (hits sh c) items).

(** A point that lies on the grid, addressed by plain indices. *)
Definition in_grid (sh : Z * Z * Z) (p : point) : Prop :=
  let '(nx, ny, nz) := sh in
  let '(px, py, pz) := p in
  (0 <= px < nx /\ 0 <= py < ny /\ 0 <= pz < nz)%Z.

(** ** The same expressions in binary64

    NumPy and Python evaluate [bd.linspace] and the argument of the waveform
    in IEEE-754 binary64.  The definitions below do the same on machine
    floats, with every operation rounded to nearest. *)





(** [Source._get_location] over any backend: [bd_linspace] stands for
    [bd.linspace(., ., ., endpoint=False)] and [bd_int] for
    [bd.array(., bd.int)]. *)
Section Sampler.

Variable F : Type.
Variable bd_linspace : Z -> Z -> Z -> Raised (list F).
Variable bd_int : list F -> list Z.

Definition _get_location_with (p0 p1 : point)
  : Raised (list Z * list Z * list Z) :=
  let '(x0, y0, z0) := p0 in
  let '(x1, y1, z1) := p1 in
  let m :=
    Z.max (Z.max (Z.abs (x1 - x0)) (Z.abs (y1 - y0))) (Z.abs (z1 - z0)) in
  let? lx := bd_linspace x0 x1 m in
  let x := bd_int lx in
  let? ly := bd_linspace y0 y1 m in
  let y := bd_int ly in
  let? lz := bd_linspace z0 z1 m in
  let z := bd_int lz in
  Ok (x, y, z).

End Sampler.

Arguments _get_location_with {F} bd_linspace bd_int p0 p1.





(** * Properties *)

(** ** The line sampler *)

Lemma linspace_nonneg (start stop num : Z) :
  (0 <= num)%Z ->
  linspace start stop num =
  Ok (map (fun i : nat =>
             (inject_Z (Z.of_nat i) * (inject_Z (stop - start) / inject_Z num)
              + inject_Z start)%Q)
          (seq 0 (Z.to_nat num))).
Proof.
  intros H. unfold linspace.
  destruct (Z.ltb_spec num 0); [lia | reflexivity].
Qed.

Lemma Qtrunc_sample (a0 a1 L : Z) (i : nat) :
  (0 < L)%Z ->
  Qtrunc (inject_Z (Z.of_nat i) * (inject_Z (a1 - a0) / inject_Z L)
          + inject_Z a0)%Q
  = sample a0 a1 L i.
Proof.
  intros HL. destruct L as [|l|l]; try lia.
  unfold sample, Qtrunc, Qdiv, Qinv, Qmult, Qplus, inject_Z. simpl Qnum. simpl Qden.
  f_equal; lia.
Qed.


Lemma span_nonneg (p q : point) : (0 <= span p q)%Z.
Proof. destruct p as [[? ?] ?], q as [[? ?] ?]. unfold span. lia. Qed.

Lemma sampled_axis (a0 a1 L : Z) :
  (0 <= L)%Z ->
  (let? l := linspace a0 a1 L in Ok (array_int l))
  = Ok (map (sample a0 a1 L) (seq 0 (Z.to_nat L))).
Proof.
  intros HL. rewrite linspace_nonneg by assumption. simpl.
  unfold array_int. rewrite map_map. f_equal.
  apply map_ext_in. intros i Hi. apply in_seq in Hi.
  apply Qtrunc_sample. lia.
Qed.

(** The value of [_get_location]: it never raises, and every axis holds the
    samples of its own half-open range. *)
Lemma get_location_eq (x0 y0 z0 x1 y1 z1 : Z) :
  let m := span (x0, y0, z0) (x1, y1, z1) in
  _get_location (x0, y0, z0) (x1, y1, z1)
  = Ok (map (sample x0 x1 m) (seq 0 (Z.to_nat m)),
        map (sample y0 y1 m) (seq 0 (Z.to_nat m)),
        map (sample z0 z1 m) (seq 0 (Z.to_nat m))).
Proof.
  intros m. pose proof (span_nonneg (x0, y0, z0) (x1, y1, z1)) as Hm.
  fold m in Hm. unfold _get_location. fold (span (x0, y0, z0) (x1, y1, z1)).
  fold m.
  rewrite !linspace_nonneg by assumption. simpl.
  unfold array_int. rewrite !map_map.
  f_equal. f_equal; [f_equal|];
    apply map_ext_in; intros i Hi; apply in_seq in Hi;
    apply Qtrunc_sample; lia.
Qed.

Lemma zip3_map (f g h : nat -> Z) (l : list nat) :
  zip3 (map f l) (map g l) (map h l) = map (fun i => (f i, g i, h i)) l.
Proof.
  unfold zip3. induction l as [|i l IH]; simpl; [reflexivity|].
  f_equal. exact IH.
Qed.

Lemma zip3_length (a b c : list Z) :
  length b = length a -> length c = length a ->
  length (zip3 a b c) = length a.
Proof.
  intros Hb Hc. unfold zip3. rewrite !length_combine. lia.
Qed.

(** On an axis whose span is the whole of [L], or nothing, a sample is the
    start moved by [i] unit steps. *)
Lemma sample_unit_step (a0 a1 L s : Z) (i : nat) :
  (0 < L)%Z -> (a1 - a0 = s * L)%Z ->
  sample a0 a1 L i = (a0 + s * Z.of_nat i)%Z.
Proof.
  intros HL Hd. unfold sample. rewrite Hd.
  replace (a0 * L + Z.of_nat i * (s * L))%Z
    with ((a0 + s * Z.of_nat i) * L)%Z by ring.
  apply Z.quot_mul. lia.
Qed.


Lemma unit_step_cases (a0 a1 L : Z) :
  Z.abs (a1 - a0) = L -> (a1 - a0 = 1 * L \/ a1 - a0 = -1 * L)%Z.
Proof. lia. Qed.

(** One of the three axes spans the whole of [L]. *)
Lemma span_axis (x0 y0 z0 x1 y1 z1 : Z) :
  let m := span (x0, y0, z0) (x1, y1, z1) in
  Z.abs (x1 - x0) = m \/ Z.abs (y1 - y0) = m \/ Z.abs (z1 - z0) = m.
Proof. unfold span. lia. Qed.

Lemma NoDup_map_seq {A : Type} (f : nat -> A) (n : nat) :
  (forall i j, (i < n)%nat -> (j < n)%nat -> f i = f j -> i = j) ->
  NoDup (map f (seq 0 n)).
Proof.
  intros Hinj. apply NoDup_nth_error. intros i j Hi Hij.
  rewrite length_map, length_seq in Hi.
  destruct (Nat.lt_ge_cases j n) as [Hj|Hj].
  - rewrite !nth_error_map, !nth_error_seq in Hij.
    destruct (Nat.ltb_spec i n), (Nat.ltb_spec j n); try lia.
    simpl in Hij. injection Hij as Hij. apply Hinj; assumption.
  - rewrite (proj2 (nth_error_None (map f (seq 0 n)) j)) in Hij
      by (rewrite length_map, length_seq; lia).
    apply nth_error_None in Hij. rewrite length_map, length_seq in Hij. lia.
Qed.

Lemma nth_map_seq {A : Type} (f : nat -> A) (n i : nat) (d : A) :
  (i < n)%nat -> nth i (map f (seq 0 n)) d = f i.
Proof.
  intros Hi. rewrite (nth_indep _ d (f 0%nat))
    by (rewrite length_map, length_seq; exact Hi).
  rewrite (map_nth f (seq 0 n) 0%nat i). rewrite seq_nth by exact Hi.
  reflexivity.
Qed.

(** The points of the line, as [zip(x, y, z)] sees them. *)
Lemma get_location_points (x0 y0 z0 x1 y1 z1 : Z) :
  let m := span (x0, y0, z0) (x1, y1, z1) in
  exists xs ys zs,
    _get_location (x0, y0, z0) (x1, y1, z1) = Ok (xs, ys, zs) /\
    xs = map (sample x0 x1 m) (seq 0 (Z.to_nat m)) /\
    ys = map (sample y0 y1 m) (seq 0 (Z.to_nat m)) /\
    zs = map (sample z0 z1 m) (seq 0 (Z.to_nat m)) /\
    zip3 xs ys zs =
    map (fun i => (sample x0 x1 m i, sample y0 y1 m i, sample z0 z1 m i))
        (seq 0 (Z.to_nat m)).
Proof.
  intros m. do 3 eexists. split; [apply get_location_eq|].
  fold m. repeat split. apply zip3_map.
Qed.

(** Two samples of one line at different indices differ on the axis that
    spans the whole of [L]. *)
Lemma samples_injective (x0 y0 z0 x1 y1 z1 : Z) (i j : nat) :
  let m := span (x0, y0, z0) (x1, y1, z1) in
  (0 < m)%Z ->
  (sample x0 x1 m i, sample y0 y1 m i, sample z0 z1 m i)
  = (sample x0 x1 m j, sample y0 y1 m j, sample z0 z1 m j) ->
  i = j.
Proof.
  intros m Hm Heq. injection Heq as Hx Hy Hz.
  destruct (span_axis x0 y0 z0 x1 y1 z1) as [H|[H|H]]; fold m in H;
    apply unit_step_cases in H; destruct H as [H|H].
  all: try (rewrite !(sample_unit_step _ _ _ _ _ Hm H) in Hx; lia).
  all: try (rewrite !(sample_unit_step _ _ _ _ _ Hm H) in Hy; lia).
  all: try (rewrite !(sample_unit_step _ _ _ _ _ Hm H) in Hz; lia).
Qed.






(** ** Registration *)

Lemma bind_ok {A B : Type} (c : Raised A) (k : A -> Raised B) (b : B) :
  bind c k = Ok b -> exists a, c = Ok a /\ k a = Ok b.
Proof.
  destruct c as [a|e]; simpl; [|discriminate]. intros H. exists a. now split.
Qed.

Lemma item_map_seq (f : nat -> Z) (n i : nat) (v : Z) :
  item (map f (seq 0 n)) i = Ok v -> (i < n)%nat /\ v = f i.
Proof.
  unfold item. rewrite nth_error_map, nth_error_seq.
  destruct (Nat.ltb_spec i n); simpl; [|discriminate].
  intros [= <-]. now split.
Qed.

Lemma distances_sq_dist (xs ys zs : list Z) (xm ym zm : Z) :
  distances xs ys zs xm ym zm
  = map (fun p => Fin (IZR (sq_dist p (xm, ym, zm)))) (zip3 xs ys zs).
Proof.
  unfold distances, array_float. rewrite map_map.
  apply map_ext. intros [[a b] c]. reflexivity.
Qed.

(** What a successful [register_grid] has computed. *)
Lemma register_grid_inv (self s : Source) (g : Grid) :
  register_grid self g = Ok s ->
  exists period' a0 b0 c0 a1 b1 c1 eps vmax,
    _handle_time g (period self) = Ok period' /\
    _handle_tuple g (p0 self) = Ok (a0, b0, c0) /\
    _handle_tuple g (p1 self) = Ok (a1, b1, c1) /\
    let m := span (a0, b0, c0) (a1, b1, c1) in
    let n := Z.to_nat m in
    let pt := fun i => (sample a0 a1 m i, sample b0 b1 m i, sample c0 c1 m i) in
    let coords := map pt (seq 0 n) in
    (0 < m)%Z /\
    x s = map (sample a0 a1 m) (seq 0 n) /\
    y s = map (sample b0 b1 m) (seq 0 n) /\
    z s = map (sample c0 c1 m) (seq 0 n) /\
    zip3 (x s) (y s) (z s) = coords /\
    take (shape g) (inverse_permittivity g) coords 2 = Ok eps /\
    vect s = map (fun p => Fin (IZR (sq_dist p (pt (n / 2)%nat)))) coords /\
    array_max (vect s) = Ok vmax /\
    profile s =
      zip_mul (map (fun w => xdiv w (array_sum (gaussian (vect s) vmax)))
                   (gaussian (vect s) vmax))
              (map (fun e => xsqrt (xmul (power self) e)) eps) /\
    grid s = true /\ period s = period' /\ power s = power self /\
    phase_shift s = phase_shift self /\
    p0 s = grid_point a0 b0 c0 /\ p1 s = grid_point a1 b1 c1.
Proof.
  unfold register_grid. intros H.
  apply bind_ok in H. destruct H as (period' & Ht & H).
  apply bind_ok in H. destruct H as ([[a0 b0] c0] & Hp0 & H).
  apply bind_ok in H. destruct H as ([[a1 b1] c1] & Hp1 & H).
  rewrite get_location_eq in H. simpl bind in H.
  set (m := span (a0, b0, c0) (a1, b1, c1)) in *.
  set (n := Z.to_nat m) in *.
  rewrite zip3_map in H.
  apply bind_ok in H. destruct H as (eps & Heps & H).
  rewrite length_map, length_seq in H.
  apply bind_ok in H. destruct H as (xm & Hxm & H).
  apply bind_ok in H. destruct H as (ym & Hym & H).
  apply bind_ok in H. destruct H as (zm & Hzm & H).
  apply bind_ok in H. destruct H as (vmax & Hmax & H).
  apply item_map_seq in Hxm, Hym, Hzm.
  destruct Hxm as [Hn ->], Hym as [_ ->], Hzm as [_ ->].
  rewrite distances_sq_dist in Hmax, H.
  rewrite zip3_map in Hmax, H.
  injection H as <-. simpl.
  exists period', a0, b0, c0, a1, b1, c1, eps, vmax.
  fold m. fold n. rewrite zip3_map.
  repeat split; try assumption; try reflexivity.
  unfold n in Hn. lia.
Qed.

Lemma span_same (p : point) : span p p = 0%Z.
Proof. destruct p as [[a b] c]. unfold span. lia. Qed.

(** C6.  When both endpoints resolve to the same grid point, registration
    raises: the line has no points, and looking up its middle point
    [self.x[L // 2]] is an [IndexError] (unless resolving the period has
    raised before). *)
Theorem degenerate_line_raises (self : Source) (g : Grid) (p : point) :
  _handle_tuple g (p0 self) = Ok p ->
  _handle_tuple g (p1 self) = Ok p ->
  raises (register_grid self g) = true /\
  (forall t, _handle_time g (period self) = Ok t ->
             register_grid self g = Raise IndexError).
Proof.
  intros H0 H1.
  assert (Hgo : forall t, _handle_time g (period self) = Ok t ->
                          register_grid self g = Raise IndexError).
  { intros t Ht. unfold register_grid. rewrite Ht, H0, H1. simpl bind.
    destruct p as [[a b] c]. rewrite get_location_eq.
    rewrite span_same. reflexivity. }
  split; [|exact Hgo].
  destruct (_handle_time g (period self)) as [t|e] eqn:Ht.
  - rewrite (Hgo t eq_refl). reflexivity.
  - unfold register_grid. rewrite Ht. reflexivity.
Qed.

Lemma degenerate_line_raises_witness :
  register_grid
    (__init__ (grid_point 1 0 0) (grid_point 1 0 0) (PyInt 4) (Fin 1) (Fin 0))
    grid4
  = Raise IndexError.
Proof.
  refine (proj2 (degenerate_line_raises _ grid4 (1, 0, 0)%Z _ _) (PyInt 4) _);
    reflexivity.
Defined.

(** C7, as the code has it.  [register_grid] checks neither the power nor
    the resolved period: whether it raises is the same for any power and for
    any period the grid's time resolver accepts. *)
Theorem registration_ignores_power_period
  (self : Source) (g : Grid) (period' : Number) (power' : xreal) :
  raises (_handle_time g period') = raises (_handle_time g (period self)) ->
  raises (register_grid (reconfigure self period' power') g)
  = raises (register_grid self g).
Proof.
  intros Ht. unfold register_grid, reconfigure.
  cbn [period power p0 p1 phase_shift].
  destruct (_handle_time g period') as [t'|e'],
           (_handle_time g (period self)) as [t|e]; cbn [bind raises] in *;
    try discriminate; try reflexivity.
  destruct (_handle_tuple g (p0 self)) as [[[a0 b0] c0]|]; cbn [bind raises];
    [|reflexivity].
  destruct (_handle_tuple g (p1 self)) as [[[a1 b1] c1]|]; cbn [bind raises];
    [|reflexivity].
  rewrite get_location_eq. cbn [bind raises].
  destruct (take _ _ _ _); cbn [bind raises]; [|reflexivity].
  destruct (item _ _); cbn [bind raises]; [|reflexivity].
  destruct (item _ _); cbn [bind raises]; [|reflexivity].
  destruct (item _ _); cbn [bind raises]; [|reflexivity].
  destruct (array_max _); reflexivity.
Qed.

Lemma registration_ignores_power_period_witness :
  raises (register_grid (reconfigure line4 (PyInt 0) (Fin (-1))) grid4) = false.
Proof.
  rewrite (registration_ignores_power_period line4 grid4 (PyInt 0) (Fin (-1)));
    reflexivity.
Defined.

(** C7, as stated, fails: a source of negative power is registered without
    any error. *)
Lemma negative_power_accepted :
  exists s,
    register_grid
      (__init__ (grid_point 0 0 0) (grid_point 4 0 0) (PyInt 4) (Fin (-1)) (Fin 0))
      grid4
    = Ok s /\ power s = Fin (-1).
Proof. eexists. split; reflexivity. Qed.

(** C9.  [update_H] raises nothing and leaves the source and the grid, its
    field array included, as they were. *)
Theorem update_H_noop (self : Source) (g : Grid) :
  update_H self g = (self, g, None) /\
  forall c, E (snd (fst (update_H self g))) c = E g c.
Proof. split; reflexivity. Qed.

(** ** The per-step injection *)

Lemma cell_eqb_eq (a b : cell) : cell_eqb a b = true <-> a = b.
Proof.
  destruct a as [[[a1 a2] a3] a4], b as [[[b1 b2] b3] b4]. unfold cell_eqb.
  rewrite !andb_true_iff, !Z.eqb_eq. split.
  - intros [[[-> ->] ->] ->]. reflexivity.
  - intros [= -> -> -> ->]. auto.
Qed.

Lemma cell_eqb_refl (a : cell) : cell_eqb a a = true.
Proof. apply cell_eqb_eq. reflexivity. Qed.

Lemma cell_eqb_neq (a b : cell) : a <> b -> cell_eqb a b = false.
Proof.
  intros H. destruct (cell_eqb a b) eqn:E; [|reflexivity].
  apply cell_eqb_eq in E. contradiction.
Qed.

(** A successful array lookup has found a cell for every point. *)
Lemma take_ok (sh : Z * Z * Z) (a : cell -> xreal) (ps : list point)
  (vs : list xreal) :
  take sh a ps 2 = Ok vs ->
  length vs = length ps /\
  forall i, (i < length ps)%nat ->
    exists c, cell_of sh (nth i ps origin) = Ok c /\ nth i vs NaN = a c.
Proof.
  revert vs. induction ps as [|[[px py] pz] ps IH]; intros vs H.
  - injection H as <-. split; [reflexivity|]. simpl. lia.
  - simpl in H. apply bind_ok in H. destruct H as (c & Hc & H).
    apply bind_ok in H. destruct H as (vs' & Hvs & H). injection H as <-.
    destruct (IH vs' Hvs) as [Hlen Hnth]. split; [simpl; lia|].
    intros [|i] Hi.
    + exists c. split; [exact Hc | reflexivity].
    + simpl in Hi. apply Hnth. lia.
Qed.

Lemma add_values_spec (sh : Z * Z * Z) (items : list (point * xreal)) :
  Forall (fun it => raises (cell_of sh (fst it)) = false) items ->
  forall field, exists field',
    add_values sh field items = (field', None) /\
    forall c, field' c = fold_left xadd (contributions sh c items) (field c).
Proof.
  induction 1 as [|[[[px py] pz] v] items Hit _ IH]; intros field.
  - exists field. split; reflexivity.
  - simpl in Hit. simpl add_values.
    destruct (locate sh px py pz 2) as [c0|e] eqn:Hc0; [|discriminate].
    destruct (IH (store field c0 (xadd (field c0) v))) as (field' & Hrun & Hval).
    exists field'. split; [exact Hrun|].
    intros c. rewrite Hval. unfold contributions. simpl filter.
    unfold hits at 2. simpl fst. unfold cell_of. rewrite Hc0.
    unfold store. destruct (cell_eqb c0 c) eqn:Hc.
    + apply cell_eqb_eq in Hc. subst c0. reflexivity.
    + reflexivity.
Qed.

Lemma filter_single {A : Type} (f : A -> bool) (l : list A) (i : nat) (d : A) :
  (i < length l)%nat -> f (nth i l d) = true ->
  (forall j, (j < length l)%nat -> j <> i -> f (nth j l d) = false) ->
  filter f l = [nth i l d].
Proof.
  revert i. induction l as [|a l IH]; intros i Hi Hf Hothers; [simpl in Hi; lia|].
  destruct i as [|i]; simpl in *.
  - rewrite Hf. f_equal.
    assert (Hall : forall b, In b l -> f b = false).
    { intros b Hb. destruct (In_nth l b d Hb) as (j & Hj & <-).
      apply (Hothers (S j)); lia. }
    clear -Hall. induction l as [|b l IH]; [reflexivity|].
    simpl. rewrite (Hall b) by now left. apply IH.
    intros c Hc. apply Hall. now right.
  - assert (Ha : f a = false) by (apply (Hothers 0%nat); lia).
    rewrite Ha.
    apply IH; [lia | exact Hf |].
    intros j Hj Hji. apply (Hothers (S j)); lia.
Qed.

Lemma filter_none {A : Type} (f : A -> bool) (l : list A) (d : A) :
  (forall j, (j < length l)%nat -> f (nth j l d) = false) ->
  filter f l = [].
Proof.
  induction l as [|a l IH]; intros H; [reflexivity|].
  assert (Ha : f a = false) by (apply (H 0%nat); simpl; lia).
  simpl. rewrite Ha.
  apply IH. intros j Hj. apply (H (S j)). simpl. lia.
Qed.

Lemma nth_map_in {A B : Type} (f : A -> B) (l : list A) (i : nat)
  (d : B) (d' : A) :
  (i < length l)%nat -> nth i (map f l) d = f (nth i l d').
Proof.
  revert i. induction l as [|a l IH]; intros [|i] Hi; simpl in *;
    try lia; [reflexivity|].
  apply IH. lia.
Qed.

Lemma zip_mul_length (a b : list xreal) :
  length b = length a -> length (zip_mul a b) = length a.
Proof.
  intros H. unfold zip_mul. rewrite length_map, length_combine. lia.
Qed.

Lemma zip_mul_nth (a b : list xreal) (i : nat) :
  length b = length a -> (i < length a)%nat ->
  nth i (zip_mul a b) NaN = xmul (nth i a NaN) (nth i b NaN).
Proof.
  intros Hlen Hi. unfold zip_mul.
  rewrite (nth_map_in _ _ _ _ (NaN, NaN)) by (rewrite length_combine; lia).
  rewrite combine_nth by (symmetry; exact Hlen). reflexivity.
Qed.

(** The shape of what registration leaves behind: one weight per point. *)
Lemma registered_lengths (self s : Source) (g : Grid) :
  register_grid self g = Ok s ->
  let L := length (zip3 (x s) (y s) (z s)) in
  (0 < L)%nat /\ length (x s) = L /\ length (y s) = L /\ length (z s) = L /\
  length (vect s) = L /\ length (profile s) = L /\ grid s = true /\
  forall i, (i < L)%nat ->
    exists c, cell_of (shape g) (nth i (zip3 (x s) (y s) (z s)) origin) = Ok c.
Proof.
  intros H. apply register_grid_inv in H.
  destruct H as (t & a0 & b0 & c0 & a1 & b1 & c1 & eps & vmax & _ & _ & _ & H).
  cbv zeta in H.
  destruct H as (Hm & Hx & Hy & Hz & Hzip & Heps & Hv & _ & Hp & Hg & _).
  apply take_ok in Heps. destruct Heps as [Hlen Hcells].
  cbv zeta. rewrite Hzip, Hx, Hy, Hz, Hp, Hv.
  rewrite zip_mul_length; unfold gaussian;
    rewrite ?length_map, ?length_seq in *; try exact Hlen.
  repeat split; try reflexivity; try lia; try exact Hg.
  intros i Hi. destruct (Hcells i Hi) as (c & Hc & _). exists c. exact Hc.
Qed.

Lemma waveform_finite (s : Source) (q : Z) (T phi : R) :
  to_float (period s) = Fin T -> T <> 0%R -> phase_shift s = Fin phi ->
  waveform s q = Ok (Fin (sin (2 * PI * IZR q / T + phi))).
Proof.
  intros HT HT0 Hphi. unfold waveform. rewrite HT, Hphi.
  unfold py_truediv, xdiv, xmul.
  destruct (Req_dec_T T 0) as [E0|_]; [contradiction|]. reflexivity.
Qed.

(** One run of [update_E] whose waveform evaluates to [w] and whose points
    all lie on the grid: every cell ends with its old value plus, in loop
    order, the values of the points that address it. *)
Lemma update_E_run (s : Source) (g : Grid) (w : xreal) :
  let coords := zip3 (x s) (y s) (z s) in
  let items := combine coords (map (fun p => xmul p w) (profile s)) in
  grid s = true ->
  waveform s (timesteps_passed g) = Ok w ->
  (forall i, (i < length coords)%nat ->
     exists c, cell_of (shape g) (nth i coords origin) = Ok c) ->
  exists field',
    update_E s g = (set_E g field', None) /\
    forall c,
      field' c = fold_left xadd (contributions (shape g) c items) (E g c).
Proof.
  intros coords items Hg Hw Hcells.
  assert (Hall : Forall (fun it => raises (cell_of (shape g) (fst it)) = false)
                        items).
  { apply Forall_forall. intros [p v] Hin. simpl.
    apply in_combine_l in Hin.
    destruct (In_nth coords p origin Hin) as (i & Hi & <-).
    destruct (Hcells i Hi) as (c & ->). reflexivity. }
  destruct (add_values_spec (shape g) items Hall (E g)) as (field' & Hrun & Hval).
  exists field'. split; [|exact Hval].
  unfold update_E. rewrite Hg, Hw. simpl negb. cbv iota.
  fold coords. fold items. rewrite Hrun. reflexivity.
Qed.

(** C1.  For a registered source with a finite non-zero period and a finite
    phase shift, [update_E] on its grid reads [q = timesteps_passed], raises
    nothing and changes the field array only: every cell ends with its old
    value plus [profile_i * sin(2*pi*q/period + phase_shift)] for each index
    [i] of the line that addresses it (component 2), added one after the
    other; a cell addressed by the single index [i] ends with its old value
    plus that one product, and a cell no index addresses keeps its value. *)
Theorem update_E_accumulates (self s : Source) (g0 g : Grid) (T phi : R) :
  register_grid self g0 = Ok s ->
  shape g = shape g0 ->
  to_float (period s) = Fin T -> T <> 0%R ->
  phase_shift s = Fin phi ->
  let q := timesteps_passed g in
  let w := Fin (sin (2 * PI * IZR q / T + phi)) in
  let coords := zip3 (x s) (y s) (z s) in
  let L := length coords in
  let values := map (fun p => xmul p w) (profile s) in
  length (profile s) = L /\
  exists g',
    update_E s g = (g', None) /\
    shape g' = shape g /\
    timesteps_passed g' = timesteps_passed g /\
    inverse_permittivity g' = inverse_permittivity g /\
    (forall c,
       E g' c
       = fold_left xadd (contributions (shape g) c (combine coords values))
                   (E g c)) /\
    (forall i, (i < L)%nat ->
       exists c,
         cell_of (shape g) (nth i coords origin) = Ok c /\
         ((forall j, (j < L)%nat -> j <> i ->
             cell_of (shape g) (nth j coords origin) <> Ok c) ->
          E g' c = xadd (E g c) (xmul (nth i (profile s) NaN) w))) /\
    (forall c,
       (forall i, (i < L)%nat ->
          cell_of (shape g) (nth i coords origin) <> Ok c) ->
       E g' c = E g c).
Proof.
  intros Hreg Hsh HT HT0 Hphi q w coords L values.
  destruct (registered_lengths self s g0 Hreg)
    as (HL & _ & _ & _ & _ & Hplen & Hg & Hcells).
  fold coords in HL, Hplen, Hcells. fold L in HL, Hplen, Hcells.
  rewrite <- Hsh in Hcells.
  split; [exact Hplen|].
  pose proof (waveform_finite s q T phi HT HT0 Hphi) as Hw. fold w in Hw.
  destruct (update_E_run s g w Hg Hw Hcells) as (field' & Hrun & Hval).
  fold coords in Hval. fold values in Hval.
  exists (set_E g field'). split; [exact Hrun|].
  do 3 (split; [reflexivity|]).
  assert (Hilen : length (combine coords values) = L).
  { rewrite length_combine. unfold values. rewrite length_map, Hplen.
    fold L. lia. }
  assert (Hnth : forall i, (i < L)%nat ->
            nth i (combine coords values) (origin, NaN)
            = (nth i coords origin, xmul (nth i (profile s) NaN) w)).
  { intros i Hi. rewrite combine_nth
      by (unfold values; rewrite length_map, Hplen; reflexivity).
    f_equal. unfold values.
    apply (nth_map_in (fun p => xmul p w)). rewrite Hplen. exact Hi. }
  split; [exact Hval|]. split.
  - intros i Hi. destruct (Hcells i Hi) as (c & Hc). exists c.
    split; [exact Hc|]. intros Hothers. simpl E. rewrite Hval.
    unfold contributions.
    rewrite (filter_single _ _ i (origin, NaN)).
    + rewrite (Hnth i Hi). reflexivity.
    + rewrite Hilen. exact Hi.
    + rewrite (Hnth i Hi). unfold hits. simpl fst. rewrite Hc.
      apply cell_eqb_refl.
    + intros j Hj Hji. rewrite Hilen in Hj. rewrite (Hnth j Hj).
      unfold hits. simpl fst.
      destruct (cell_of (shape g) (nth j coords origin)) as [c'|e] eqn:Hc';
        [|reflexivity].
      apply cell_eqb_neq. intros ->. exact (Hothers j Hj Hji Hc').
  - intros c Hnone. simpl E. rewrite Hval. unfold contributions.
    rewrite (filter_none _ _ (origin, NaN)); [reflexivity|].
    intros j Hj. rewrite Hilen in Hj. rewrite (Hnth j Hj).
    unfold hits. simpl fst.
    destruct (cell_of (shape g) (nth j coords origin)) as [c'|e] eqn:Hc';
      [|reflexivity].
    apply cell_eqb_neq. intros ->. exact (Hnone j Hj Hc').
Qed.

Lemma update_E_accumulates_witness :
  exists g',
    update_E (registered line4 grid4) grid4 = (g', None) /\
    E g' (0, 0, 0, 1)%Z = E grid4 (0, 0, 0, 1)%Z.
Proof.
  destruct (update_E_accumulates line4 (registered line4 grid4) grid4 grid4 4 0)
    as (_ & g' & Hrun & _ & _ & _ & _ & _ & Hframe);
    try reflexivity; [lra|].
  exists g'. split; [exact Hrun|].
  apply Hframe. intros i Hi.
  change (length (zip3 (x (registered line4 grid4)) (y (registered line4 grid4))
                       (z (registered line4 grid4)))) with 4%nat in Hi.
  destruct i as [|[|[|[|i]]]]; try lia; discriminate.
Defined.




(** ** The spatial profile *)

(** One term of [gaussian]. *)
Lemma gaussian_nth (vs : list xreal) (vmax : xreal) (i : nat) :
  (i < length vs)%nat ->
  nth i (gaussian vs vmax) NaN
  = xexp (xdiv (xneg (xsqr (nth i vs NaN)))
               (xmul (Fin 2) (xsqr (xmul (Fin 0.5) vmax)))).
Proof.
  intros Hi. unfold gaussian.
  apply (nth_map_in (fun v => xexp (xdiv (xneg (xsqr v)) _))). exact Hi.
Qed.

Lemma sq_dist_nonneg (p c : point) : (0 <= sq_dist p c)%Z.
Proof. destruct p as [[? ?] ?], c as [[? ?] ?]. unfold sq_dist. nia. Qed.

Lemma sq_dist_zero (p c : point) : sq_dist p c = 0%Z -> p = c.
Proof.
  destruct p as [[a1 a2] a3], c as [[b1 b2] b3]. unfold sq_dist. intros H.
  assert (a1 - b1 = 0 /\ a2 - b2 = 0 /\ a3 - b3 = 0)%Z as (H1 & H2 & H3) by nia.
  f_equal; [f_equal|]; lia.
Qed.

Lemma spec_d_nonneg (coords : list point) (i : nat) : (0 <= spec_d coords i)%Z.
Proof. apply sq_dist_nonneg. Qed.

Lemma Rmax_IZR_max (a b : Z) : Rmax (IZR a) (IZR b) = IZR (Z.max a b).
Proof.
  unfold Rmax. destruct (Rle_dec (IZR a) (IZR b)) as [H|H].
  - apply le_IZR in H. rewrite Z.max_r by exact H. reflexivity.
  - rewrite Z.max_l; [reflexivity|].
    destruct (Z.le_ge_cases b a) as [Hba|Hab]; [exact Hba|].
    exfalso. apply H. apply IZR_le. exact Hab.
Qed.

Lemma fold_xmax_IZR (l : list Z) (a : Z) :
  fold_left xmax (map (fun n => Fin (IZR n)) l) (Fin (IZR a))
  = Fin (IZR (fold_left Z.max l a)).
Proof.
  revert a. induction l as [|b l IH]; intros a; [reflexivity|].
  simpl. rewrite Rmax_IZR_max. apply IH.
Qed.

Lemma fold_Zmax_nonneg (l : list Z) (a : Z) :
  (0 <= a)%Z -> Forall (fun b => 0 <= b)%Z l ->
  fold_left Z.max l a = fold_right Z.max 0%Z (a :: l).
Proof.
  intros Ha Hl. revert a Ha.
  induction Hl as [|b l Hb Hl IH]; intros a Ha; simpl.
  - lia.
  - rewrite IH by lia. simpl. lia.
Qed.

Lemma fold_Zmax_upper (l : list Z) (b : Z) :
  In b l -> (b <= fold_right Z.max 0%Z l)%Z.
Proof.
  induction l as [|a l IH]; simpl; [contradiction|].
  intros [->|H]; [lia|]. specialize (IH H). lia.
Qed.

Lemma spec_d_le_dmax (coords : list point) (i : nat) :
  (i < length coords)%nat -> (spec_d coords i <= spec_dmax coords)%Z.
Proof.
  intros Hi. unfold spec_dmax. apply fold_Zmax_upper.
  apply in_map. apply in_seq. lia.
Qed.

Lemma spec_dmax_nonneg (coords : list point) : (0 <= spec_dmax coords)%Z.
Proof.
  unfold spec_dmax.
  induction (map (spec_d coords) (seq 0 (length coords))); simpl; lia.
Qed.

(** The maximum that registration takes over the float distances is the
    maximum of the integer distances. *)
Lemma array_max_distances (coords : list point) :
  (0 < length coords)%nat ->
  array_max (map (fun i => Fin (IZR (spec_d coords i))) (seq 0 (length coords)))
  = Ok (Fin (IZR (spec_dmax coords))).
Proof.
  intros Hn. unfold spec_dmax.
  destruct (length coords) as [|n]; [lia|].
  simpl seq. simpl map. unfold array_max. f_equal.
  rewrite <- (map_map (spec_d coords) (fun n => Fin (IZR n))).
  rewrite fold_xmax_IZR. do 2 f_equal.
  apply fold_Zmax_nonneg; [apply spec_d_nonneg|].
  apply Forall_forall. intros b Hb. apply in_map_iff in Hb.
  destruct Hb as (j & <- & _). apply spec_d_nonneg.
Qed.

(** The profile that registration builds, entry by entry, over the
    distances and the maximum of the reference definition. *)
Lemma registered_profile (self s : Source) (g : Grid) :
  register_grid self g = Ok s ->
  let coords := zip3 (x s) (y s) (z s) in
  let L := length coords in
  let vmax := Fin (IZR (spec_dmax coords)) in
  NoDup coords /\
  vect s = map (fun i => Fin (IZR (spec_d coords i))) (seq 0 L) /\
  length (profile s) = L /\
  forall i, (i < L)%nat ->
    exists c,
      cell_of (shape g) (nth i coords origin) = Ok c /\
      nth i (profile s) NaN
      = xmul (xdiv (nth i (gaussian (vect s) vmax) NaN)
                   (array_sum (gaussian (vect s) vmax)))
             (xsqrt (xmul (power s) (inverse_permittivity g c))).
Proof.
  intros H. apply register_grid_inv in H.
  destruct H as (t & a0 & b0 & c0 & a1 & b1 & c1 & eps & vmax & _ & _ & _ & H).
  cbv zeta in H.
  destruct H as (Hm & _ & _ & _ & Hzip & Heps & Hv & Hmax & Hp & _ & _ & Hpow & _).
  set (m := span (a0, b0, c0) (a1, b1, c1)) in *.
  set (n := Z.to_nat m) in *.
  set (pt := fun i => (sample a0 a1 m i, sample b0 b1 m i, sample c0 c1 m i)) in *.
  cbv zeta. rewrite Hzip.
  assert (Hlen : length (map pt (seq 0 n)) = n)
    by (rewrite length_map, length_seq; reflexivity).
  assert (Hn : (0 < n)%nat) by (unfold n; lia).
  rewrite Hlen.
  assert (Hvect : vect s
    = map (fun i => Fin (IZR (spec_d (map pt (seq 0 n)) i))) (seq 0 n)).
  { rewrite Hv, map_map. apply map_ext_in. intros i Hi. apply in_seq in Hi.
    unfold spec_d. rewrite Hlen.
    rewrite !nth_map_seq; [reflexivity | | lia].
    apply Nat.div_lt; lia. }
  assert (Hvmax : vmax = Fin (IZR (spec_dmax (map pt (seq 0 n))))).
  { rewrite Hvect in Hmax.
    pose proof (array_max_distances (map pt (seq 0 n))) as Hd.
    rewrite Hlen in Hd. rewrite (Hd Hn) in Hmax. injection Hmax as <-.
    reflexivity. }
  subst vmax.
  apply take_ok in Heps. destruct Heps as [Hel Hcells]. rewrite Hlen in *.
  assert (Hgl : length (gaussian (vect s)
                          (Fin (IZR (spec_dmax (map pt (seq 0 n)))))) = n).
  { unfold gaussian. rewrite length_map, Hvect, length_map, length_seq.
    reflexivity. }
  split.
  { apply NoDup_map_seq. intros i j _ _ Heq.
    exact (samples_injective a0 b0 c0 a1 b1 c1 i j Hm Heq). }
  split; [exact Hvect|]. split.
  { rewrite Hp, zip_mul_length; rewrite !length_map; rewrite Hgl; congruence. }
  intros i Hi. destruct (Hcells i Hi) as (c & Hc & Hec). exists c.
  split; [exact Hc|].
  rewrite Hp, zip_mul_nth; rewrite ?length_map, ?Hgl; try congruence.
  f_equal.
  - apply (nth_map_in (fun w => xdiv w _)). rewrite Hgl. exact Hi.
  - rewrite <- Hec, Hpow.
    apply (nth_map_in (fun e => xsqrt (xmul (power self) e))). congruence.
Qed.

Lemma Rcompare_zero : Rcompare 0 0 = Eq.
Proof. destruct (Rcompare_spec 0 0); [reflexivity | lra | lra]. Qed.

(** The Gaussian term of a point at distance 0 when the largest distance is
    0 as well: the exponent is [0 / 0]. *)
Lemma gaussian_term_degenerate :
  xexp (xdiv (xneg (xsqr (Fin 0))) (xmul (Fin 2) (xsqr (xmul (Fin 0.5) (Fin 0)))))
  = NaN.
Proof.
  unfold xsqr, xmul, xneg, xdiv.
  destruct (Req_dec_T (2 * (0.5 * 0 * (0.5 * 0))) 0) as [_|H]; [|exfalso; lra].
  unfold xinf_by. replace (- (0 * 0))%R with 0%R by ring.
  rewrite Rcompare_zero. reflexivity.
Qed.

Lemma singleton_nth (l : list xreal) (v : xreal) :
  length l = 1%nat -> nth 0 l NaN = v -> l = [v].
Proof.
  destruct l as [|a [|b l]]; simpl; try discriminate.
  intros _ ->. reflexivity.
Qed.

(** Without a positive distance on the line there is one point only, and its
    weight is not-a-number. *)
Lemma dmax_zero_profile (self s : Source) (g : Grid) :
  register_grid self g = Ok s ->
  spec_dmax (zip3 (x s) (y s) (z s)) = 0%Z ->
  length (zip3 (x s) (y s) (z s)) = 1%nat /\ profile s = [NaN].
Proof.
  intros Hreg Hd0.
  destruct (registered_lengths self s g Hreg) as (HL & _).
  destruct (registered_profile self s g Hreg) as (Hnd & Hv & Hpl & Hnth).
  set (coords := zip3 (x s) (y s) (z s)) in *.
  assert (Hzero : forall i, (i < length coords)%nat -> spec_d coords i = 0%Z).
  { intros i Hi. pose proof (spec_d_le_dmax coords i Hi).
    pose proof (spec_d_nonneg coords i). lia. }
  assert (Hone : length coords = 1%nat).
  { destruct (Nat.le_gt_cases (length coords) 1) as [Hle|Hgt]; [lia|].
    exfalso.
    assert (Hmid : (0 < length coords / 2)%nat)
      by (apply Nat.div_str_pos; lia).
    assert (Hlt : (length coords / 2 < length coords)%nat)
      by (apply Nat.div_lt; lia).
    pose proof (Hzero 0%nat HL) as H0. unfold spec_d in H0.
    apply sq_dist_zero in H0.
    rewrite NoDup_nth in Hnd. specialize (Hnd _ _ HL Hlt H0). lia. }
  split; [exact Hone|].
  apply singleton_nth; [congruence|].
  destruct (Hnth 0%nat HL) as (c & _ & ->).
  rewrite gaussian_nth by (rewrite Hv, length_map, length_seq; exact HL).
  rewrite Hv. rewrite (nth_map_in _ _ _ _ 0%nat) by (rewrite length_seq; exact HL).
  rewrite seq_nth by exact HL. simpl Nat.add.
  rewrite (Hzero 0%nat HL), Hd0. rewrite gaussian_term_degenerate.
  reflexivity.
Qed.

Lemma sq_dist_same (p : point) : sq_dist p p = 0%Z.
Proof. destruct p as [[a b] c]. unfold sq_dist. ring. Qed.

Lemma single_point_dmax (coords : list point) :
  length coords = 1%nat -> spec_dmax coords = 0%Z.
Proof.
  destruct coords as [|p [|q coords]]; try discriminate. intros _.
  unfold spec_dmax, spec_d. simpl. rewrite sq_dist_same. reflexivity.
Qed.

(** C4, as the code has it.  No point of the line lies at a positive
    distance from its middle ([max_j d_j == 0]) exactly when the line is a
    single point; registration has no guard for the case and divides 0 by 0:
    it raises nothing and leaves not-a-number as the one profile entry. *)
Theorem single_point_profile_is_nan (self s : Source) (g : Grid) :
  register_grid self g = Ok s ->
  let coords := zip3 (x s) (y s) (z s) in
  (spec_dmax coords = 0%Z <-> length coords = 1%nat) /\
  (length coords = 1%nat -> profile s = [NaN]).
Proof.
  intros Hreg coords. split; [split|].
  - intros Hd. exact (proj1 (dmax_zero_profile self s g Hreg Hd)).
  - apply single_point_dmax.
  - intros Hone.
    exact (proj2 (dmax_zero_profile self s g Hreg (single_point_dmax _ Hone))).
Qed.

Lemma single_point_profile_is_nan_witness :
  profile (registered line1 grid4) = [NaN].
Proof.
  refine (proj2 (single_point_profile_is_nan line1 (registered line1 grid4)
                   grid4 _) _); reflexivity.
Defined.

(** C4, as stated, fails: the single-point line from (0,0,0) to (1,0,0)
    registers, and its profile holds not-a-number. *)
Lemma single_point_unguarded :
  register_grid line1 grid4 = Ok (registered line1 grid4) /\
  length (x (registered line1 grid4)) = 1%nat /\
  In NaN (profile (registered line1 grid4)).
Proof.
  split; [reflexivity|]. split; [reflexivity|].
  rewrite (proj2 (dmax_zero_profile line1 (registered line1 grid4) grid4
                    eq_refl eq_refl)).
  now left.
Qed.

Lemma fold_xadd_Fin (ws : list R) (a : R) :
  fold_left xadd (map Fin ws) (Fin a) = Fin (a + Rsum ws).
Proof.
  revert a. induction ws as [|w ws IH]; intros a; simpl.
  - f_equal. ring.
  - rewrite IH. f_equal. ring.
Qed.

Lemma array_sum_Fin (ws : list R) : array_sum (map Fin ws) = Fin (Rsum ws).
Proof. unfold array_sum. rewrite fold_xadd_Fin. f_equal. ring. Qed.

Lemma Rsum_pos (ws : list R) :
  ws <> [] -> Forall (fun w => 0 < w)%R ws -> (0 < Rsum ws)%R.
Proof.
  intros Hne Hall. induction Hall as [|w ws Hw Hall IH]; [contradiction|].
  simpl. destruct ws as [|w' ws'].
  - simpl. lra.
  - assert (0 < Rsum (w' :: ws'))%R by (apply IH; discriminate). lra.
Qed.

Lemma Rsum_map_div {A : Type} (f : A -> R) (S : R) (l : list A) :
  Rsum (map (fun a => f a / S)%R l) = (Rsum (map f l) / S)%R.
Proof.
  induction l as [|a l IH]; simpl.
  - unfold Rdiv. ring.
  - rewrite IH. unfold Rdiv. ring.
Qed.

(** With a positive largest distance every Gaussian term is the finite
    weight [w_i] of the reference definition. *)
Lemma gaussian_finite (coords : list point) :
  (0 < spec_dmax coords)%Z ->
  gaussian (map (fun i => Fin (IZR (spec_d coords i))) (seq 0 (length coords)))
           (Fin (IZR (spec_dmax coords)))
  = map Fin (map (spec_w coords) (seq 0 (length coords))).
Proof.
  intros Hpos. unfold gaussian. rewrite !map_map. apply map_ext. intros i.
  assert (HD : (0 < IZR (spec_dmax coords))%R) by (apply IZR_lt; exact Hpos).
  unfold xsqr, xmul, xneg, xdiv.
  destruct (Req_dec_T _ 0) as [E0|_]; [exfalso; nra|].
  unfold xexp, spec_w. do 2 f_equal.
  unfold Rdiv. f_equal; [ring | f_equal; ring].
Qed.

Lemma weights_sum_pos (coords : list point) :
  (0 < length coords)%nat ->
  (0 < Rsum (map (spec_w coords) (seq 0 (length coords))))%R.
Proof.
  intros Hn. apply Rsum_pos.
  - destruct (length coords); [lia | discriminate].
  - apply Forall_forall. intros w Hw. apply in_map_iff in Hw.
    destruct Hw as (i & <- & _). apply exp_pos.
Qed.

(** The profile of a line that has a positive distance on it. *)
Lemma profile_finite (self s : Source) (g : Grid) :
  register_grid self g = Ok s ->
  let coords := zip3 (x s) (y s) (z s) in
  let L := length coords in
  (0 < spec_dmax coords)%Z ->
  Rsum (map (spec_weight coords) (seq 0 L)) = 1%R /\
  forall i, (i < L)%nat ->
    exists c,
      cell_of (shape g) (nth i coords origin) = Ok c /\
      nth i (profile s) NaN
      = spec_profile coords (power s) (inverse_permittivity g c) i.
Proof.
  intros Hreg coords L Hpos.
  destruct (registered_lengths self s g Hreg) as (HL & _).
  destruct (registered_profile self s g Hreg) as (_ & Hv & _ & Hnth).
  fold coords in HL, Hv, Hnth. fold L in HL, Hv, Hnth.
  pose proof (weights_sum_pos coords HL) as HS. fold L in HS.
  split.
  - unfold spec_weight. fold L.
    rewrite (Rsum_map_div (spec_w coords)). field. lra.
  - intros i Hi. destruct (Hnth i Hi) as (c & Hc & ->). exists c.
    split; [exact Hc|].
    rewrite Hv. unfold L. rewrite (gaussian_finite coords Hpos). fold L.
    rewrite array_sum_Fin.
    rewrite (nth_map_in Fin _ _ _ 0%R) by (rewrite length_map, length_seq; exact Hi).
    rewrite (nth_map_in (spec_w coords) _ _ _ 0%nat) by (rewrite length_seq; exact Hi).
    rewrite seq_nth by exact Hi. simpl Nat.add.
    unfold spec_profile, spec_weight. fold L. f_equal.
    unfold xdiv. destruct (Req_dec_T _ 0) as [E0|_]; [exfalso; lra|].
    reflexivity.
Qed.

(** C2.  For a registered source of at least two points the largest
    distance is positive, and the profile is the reference definition: with
    [d_i] the squared index distance to the point at index [L // 2] and
    [w_i = exp(-d_i^2 / (2 * (0.5 * max_j d_j)^2))], the normalized weights
    [w_i / sum_j w_j] sum to 1 and
    [profile_i = (w_i / sum_j w_j) * sqrt(power * inverse_permittivity_i)]
    with the inverse permittivity of component 2 at coordinate [i]. *)
Theorem profile_matches_reference (self s : Source) (g : Grid) :
  register_grid self g = Ok s ->
  (2 <= length (x s))%nat ->
  let coords := zip3 (x s) (y s) (z s) in
  let L := length coords in
  L = length (x s) /\
  (0 < spec_dmax coords)%Z /\
  length (profile s) = L /\
  Rsum (map (spec_weight coords) (seq 0 L)) = 1%R /\
  forall i, (i < L)%nat ->
    exists c,
      cell_of (shape g) (nth i coords origin) = Ok c /\
      nth i (profile s) NaN
      = spec_profile coords (power s) (inverse_permittivity g c) i.
Proof.
  intros Hreg H2 coords L.
  destruct (registered_lengths self s g Hreg)
    as (HL & Hx & _ & _ & _ & Hpl & _).
  fold coords in HL, Hx, Hpl. fold L in HL, Hx, Hpl.
  assert (Hpos : (0 < spec_dmax coords)%Z).
  { pose proof (spec_dmax_nonneg coords) as Hnn.
    destruct (Z.eq_dec (spec_dmax coords) 0) as [E0|Hne]; [|lia].
    destruct (dmax_zero_profile self s g Hreg E0) as [Hone _].
    fold coords in Hone. fold L in Hone. lia. }
  split; [symmetry; exact Hx|]. split; [exact Hpos|]. split; [exact Hpl|].
  exact (profile_finite self s g Hreg Hpos).
Qed.

Lemma profile_matches_reference_witness :
  Rsum (map (spec_weight (zip3 (x (registered line4 grid4))
                               (y (registered line4 grid4))
                               (z (registered line4 grid4))))
            (seq 0 4)) = 1%R.
Proof.
  refine (proj1 (proj2 (proj2 (proj2
    (profile_matches_reference line4 (registered line4 grid4) grid4 _ _))))).
  - reflexivity.
  - simpl. lia.
Defined.

(** ** Symmetry of the profile *)

Lemma straight_axis_step (a0 a1 m : Z) :
  (0 < m)%Z -> Z.abs (a1 - a0) = m \/ a1 = a0 ->
  exists s, forall k, sample a0 a1 m k = (a0 + s * Z.of_nat k)%Z.
Proof.
  intros Hm [H|H].
  - apply unit_step_cases in H. destruct H as [H|H].
    + exists 1%Z. intros k. apply sample_unit_step; assumption.
    + exists (-1)%Z. intros k. apply sample_unit_step; assumption.
  - exists 0%Z. intros k. apply sample_unit_step; [exact Hm | lia].
Qed.

(** On a straight line the squared distance to the middle point is the same
    on both sides of the middle. *)
Lemma straight_distances_mirror (a0 b0 c0 a1 b1 c1 : Z) (mid i j : nat) :
  let m := span (a0, b0, c0) (a1, b1, c1) in
  let pt := fun k => (sample a0 a1 m k, sample b0 b1 m k, sample c0 c1 m k) in
  (0 < m)%Z ->
  straight (a0, b0, c0) (a1, b1, c1) ->
  (i + j = 2 * mid)%nat ->
  sq_dist (pt i) (pt mid) = sq_dist (pt j) (pt mid).
Proof.
  intros m pt Hm (Ha & Hb & Hc) Hij. fold m in Ha, Hb, Hc.
  destruct (straight_axis_step a0 a1 m Hm Ha) as (sa & Hsa).
  destruct (straight_axis_step b0 b1 m Hm Hb) as (sb & Hsb).
  destruct (straight_axis_step c0 c1 m Hm Hc) as (sc & Hsc).
  unfold pt, sq_dist. rewrite !Hsa, !Hsb, !Hsc.
  assert (Hd : (Z.of_nat i - Z.of_nat mid = - (Z.of_nat j - Z.of_nat mid))%Z)
    by lia.
  replace (a0 + sa * Z.of_nat i - (a0 + sa * Z.of_nat mid))%Z
    with (sa * (Z.of_nat i - Z.of_nat mid))%Z by ring.
  replace (b0 + sb * Z.of_nat i - (b0 + sb * Z.of_nat mid))%Z
    with (sb * (Z.of_nat i - Z.of_nat mid))%Z by ring.
  replace (c0 + sc * Z.of_nat i - (c0 + sc * Z.of_nat mid))%Z
    with (sc * (Z.of_nat i - Z.of_nat mid))%Z by ring.
  replace (a0 + sa * Z.of_nat j - (a0 + sa * Z.of_nat mid))%Z
    with (sa * (Z.of_nat j - Z.of_nat mid))%Z by ring.
  replace (b0 + sb * Z.of_nat j - (b0 + sb * Z.of_nat mid))%Z
    with (sb * (Z.of_nat j - Z.of_nat mid))%Z by ring.
  replace (c0 + sc * Z.of_nat j - (c0 + sc * Z.of_nat mid))%Z
    with (sc * (Z.of_nat j - Z.of_nat mid))%Z by ring.
  rewrite Hd. ring.
Qed.

(** Two entries of the profile agree when their points lie at the same
    distance from the middle and see the same inverse permittivity. *)
Lemma profile_entries_agree (self s : Source) (g : Grid) (e : xreal) (i j : nat) :
  register_grid self g = Ok s ->
  let coords := zip3 (x s) (y s) (z s) in
  (forall k c, (k < length coords)%nat ->
     cell_of (shape g) (nth k coords origin) = Ok c ->
     inverse_permittivity g c = e) ->
  (i < length coords)%nat -> (j < length coords)%nat ->
  spec_d coords i = spec_d coords j ->
  nth i (profile s) NaN = nth j (profile s) NaN.
Proof.
  intros Hreg coords Huni Hi Hj Hd.
  destruct (registered_profile self s g Hreg) as (_ & Hv & _ & Hnth).
  fold coords in Hv, Hnth.
  destruct (Hnth i Hi) as (ci & Hci & ->).
  destruct (Hnth j Hj) as (cj & Hcj & ->).
  rewrite (Huni i ci Hi Hci), (Huni j cj Hj Hcj).
  rewrite !gaussian_nth by (rewrite Hv, length_map, length_seq; assumption).
  rewrite Hv.
  rewrite !(nth_map_in (fun k => Fin (IZR (spec_d coords k))) _ _ _ 0%nat)
    by (rewrite length_seq; assumption).
  rewrite !seq_nth by assumption. simpl Nat.add. rewrite Hd. reflexivity.
Qed.

(** C5, as the code has it.  With the same inverse permittivity at every
    point of a straight line (along an axis or a diagonal), the profile is
    symmetric about the index [L // 2]: entries at equal index distance on
    either side of it are equal; when [L] is odd this is
    [profile[i] == profile[L-1-i]] for every [i]. *)
Theorem profile_symmetric_about_middle
  (self s : Source) (g : Grid) (e : xreal) (a0 b0 c0 a1 b1 c1 : Z) :
  register_grid self g = Ok s ->
  p0 s = grid_point a0 b0 c0 -> p1 s = grid_point a1 b1 c1 ->
  straight (a0, b0, c0) (a1, b1, c1) ->
  let coords := zip3 (x s) (y s) (z s) in
  let L := length coords in
  (forall k c, (k < L)%nat ->
     cell_of (shape g) (nth k coords origin) = Ok c ->
     inverse_permittivity g c = e) ->
  (forall i j, (i < L)%nat -> (j < L)%nat -> (i + j = 2 * (L / 2))%nat ->
     nth i (profile s) NaN = nth j (profile s) NaN) /\
  (Nat.odd L = true ->
   forall i, (i < L)%nat ->
     nth i (profile s) NaN = nth (L - 1 - i) (profile s) NaN).
Proof.
  intros Hreg Hp0 Hp1 Hstr coords L Huni.
  assert (Hmirror : forall i j, (i < L)%nat -> (j < L)%nat ->
            (i + j = 2 * (L / 2))%nat -> spec_d coords i = spec_d coords j).
  { pose proof (register_grid_inv self s g Hreg) as H.
    destruct H as (t & a0' & b0' & c0' & a1' & b1' & c1' & eps & vmax
                   & _ & _ & _ & H).
    cbv zeta in H.
    destruct H as (Hm & _ & _ & _ & Hzip & _ & _ & _ & _ & _ & _ & _ & _
                   & Hq0 & Hq1).
    rewrite Hp0 in Hq0. rewrite Hp1 in Hq1.
    injection Hq0 as <- <- <-. injection Hq1 as <- <- <-.
    intros i j Hi Hj Hij. unfold spec_d, L, coords in *.
    rewrite Hzip in *. rewrite length_map, length_seq in *.
    assert (Hmid : (Z.to_nat (span (a0, b0, c0) (a1, b1, c1)) / 2
                    < Z.to_nat (span (a0, b0, c0) (a1, b1, c1)))%nat)
      by (apply Nat.div_lt; lia).
    rewrite !nth_map_seq by assumption.
    apply (straight_distances_mirror a0 b0 c0 a1 b1 c1); assumption. }
  split.
  - intros i j Hi Hj Hij.
    apply (profile_entries_agree self s g e i j Hreg Huni Hi Hj).
    apply Hmirror; assumption.
  - intros Hodd i Hi.
    assert (HL : (L = 2 * (L / 2) + 1)%nat).
    { rewrite (Nat.div_mod_eq L 2) at 1. f_equal.
      rewrite <- Nat.bit0_mod, Nat.bit0_odd. rewrite Hodd. reflexivity. }
    assert (Hj : (L - 1 - i < L)%nat) by lia.
    apply (profile_entries_agree self s g e i (L - 1 - i) Hreg Huni Hi Hj).
    apply Hmirror; [exact Hi | exact Hj | lia].
Qed.

Lemma profile_symmetric_about_middle_witness :
  nth 0 (profile (registered line3 grid4)) NaN
  = nth 2 (profile (registered line3 grid4)) NaN.
Proof.
  refine (proj1 (profile_symmetric_about_middle line3 (registered line3 grid4)
                   grid4 (Fin 1) 0 0 0 3 0 0 _ _ _ _ _) 0%nat 2%nat _ _ _);
    try reflexivity.
  - unfold straight, span. simpl. lia.
  - simpl. lia.
  - simpl. lia.
Defined.

(** In a uniform medium of positive finite amplitude, two points at
    different distances from the middle have different weights. *)
Lemma profile_entries_differ
  (self s : Source) (g : Grid) (pw e : R) (i j : nat) :
  register_grid self g = Ok s ->
  let coords := zip3 (x s) (y s) (z s) in
  (0 < spec_dmax coords)%Z ->
  power s = Fin pw ->
  (forall k c, (k < length coords)%nat ->
     cell_of (shape g) (nth k coords origin) = Ok c ->
     inverse_permittivity g c = Fin e) ->
  (0 < pw * e)%R ->
  (i < length coords)%nat -> (j < length coords)%nat ->
  spec_d coords i <> spec_d coords j ->
  nth i (profile s) NaN <> nth j (profile s) NaN.
Proof.
  intros Hreg coords Hpos Hpw Huni Hamp Hi Hj Hd Heq.
  destruct (profile_finite self s g Hreg Hpos) as [_ Hnth].
  fold coords in Hnth.
  destruct (Hnth i Hi) as (ci & Hci & Hpi).
  destruct (Hnth j Hj) as (cj & Hcj & Hpj).
  rewrite Hpi, Hpj in Heq.
  rewrite (Huni i ci Hi Hci), (Huni j cj Hj Hcj), Hpw in Heq.
  unfold spec_profile in Heq. unfold xmul at 2 4 in Heq. unfold xsqrt in Heq.
  destruct (Rlt_dec (pw * e) 0) as [Habs|_]; [lra|].
  unfold xmul in Heq. injection Heq as Heq.
  assert (Hsqrt : (0 < sqrt (pw * e))%R) by (apply sqrt_lt_R0; exact Hamp).
  apply Rmult_eq_reg_r in Heq; [|lra].
  assert (HS : (0 < Rsum (map (spec_w coords) (seq 0 (length coords))))%R)
    by (apply weights_sum_pos; lia).
  unfold spec_weight, Rdiv in Heq.
  apply Rmult_eq_reg_r in Heq; [|apply Rinv_neq_0_compat; lra].
  unfold spec_w in Heq. apply exp_inv in Heq.
  assert (HD : (0 < IZR (spec_dmax coords))%R) by (apply IZR_lt; exact Hpos).
  assert (Hden : (0 < 2 * (0.5 * IZR (spec_dmax coords)) ^ 2)%R) by nra.
  unfold Rdiv in Heq. apply Rmult_eq_reg_r in Heq;
    [|apply Rinv_neq_0_compat; lra].
  pose proof (IZR_le _ _ (spec_d_nonneg coords i)) as Hdi.
  pose proof (IZR_le _ _ (spec_d_nonneg coords j)) as Hdj.
  apply Hd. apply eq_IZR. nra.
Qed.

(** C5, as stated, fails: on the two-point line from (0,0,0) to (2,0,0) in
    a uniform medium the middle index is 1, the weights are [exp(-2)] and
    [exp(0)] over their sum, and [profile[0]] differs from
    [profile[L-1-0] = profile[1]]. *)
Lemma even_line_not_mirrored :
  register_grid line2 grid4 = Ok (registered line2 grid4) /\
  length (profile (registered line2 grid4)) = 2%nat /\
  nth 0 (profile (registered line2 grid4)) NaN
  <> nth (2 - 1 - 0) (profile (registered line2 grid4)) NaN.
Proof.
  split; [reflexivity|]. split.
  - destruct (registered_lengths line2 (registered line2 grid4) grid4 eq_refl)
      as (_ & _ & _ & _ & _ & Hpl & _). exact Hpl.
  - apply (profile_entries_differ line2 (registered line2 grid4) grid4 1 1);
      try reflexivity; try (simpl; lia); try lra.
    discriminate.
Qed.

(** The restriction of C5 to straight lines is needed: on the slanted line
    of odd length from (0,0,0) to (3,2,0) the points are (0,0,0), (1,0,0)
    and (2,1,0), at squared distances 1, 0 and 2 from the middle one, and
    [profile[0]] differs from [profile[2]] in a uniform medium. *)
Lemma slanted_line_not_mirrored :
  let self :=
    __init__ (grid_point 0 0 0) (grid_point 3 2 0) (PyInt 4) (Fin 1) (Fin 0) in
  let g := uniform_grid 3 2 1 (Fin 1) 0 in
  register_grid self g = Ok (registered self g) /\
  zip3 (x (registered self g)) (y (registered self g)) (z (registered self g))
  = [(0, 0, 0); (1, 0, 0); (2, 1, 0)]%Z /\
  nth 0 (profile (registered self g)) NaN
  <> nth (3 - 1 - 0) (profile (registered self g)) NaN.
Proof.
  intros self g. split; [reflexivity|]. split; [reflexivity|].
  apply (profile_entries_differ self (registered self g) g 1 1);
    try reflexivity; try (simpl; lia); try lra.
  discriminate.
Qed.

(** * Further properties of the code *)

(** ** The shape of the sampled line *)

Lemma sample_between (a0 a1 L : Z) (i : nat) :
  (0 < L)%Z -> (Z.of_nat i <= L)%Z ->
  (Z.min a0 a1 <= sample a0 a1 L i <= Z.max a0 a1)%Z.
Proof.
  intros HL Hi. unfold sample.
  assert (H0 : ((a0 * L) ÷ L = a0)%Z) by (apply Z.quot_mul; lia).
  assert (H1 : ((a1 * L) ÷ L = a1)%Z) by (apply Z.quot_mul; lia).
  set (N := (a0 * L + Z.of_nat i * (a1 - a0))%Z).
  destruct (Z.le_ge_cases a0 a1) as [Hle|Hge].
  - pose proof (Z.quot_le_mono (a0 * L) N L HL ltac:(unfold N; nia)) as Hlo.
    pose proof (Z.quot_le_mono N (a1 * L) L HL ltac:(unfold N; nia)) as Hhi.
    rewrite H0 in Hlo. rewrite H1 in Hhi. lia.
  - pose proof (Z.quot_le_mono (a1 * L) N L HL ltac:(unfold N; nia)) as Hlo.
    pose proof (Z.quot_le_mono N (a0 * L) L HL ltac:(unfold N; nia)) as Hhi.
    rewrite H1 in Hlo. rewrite H0 in Hhi. lia.
Qed.

(** Truncated quotients of two numerators at most one divisor apart are at
    most one apart. *)
Lemma quot_step (N d L : Z) :
  (0 < L)%Z -> (0 <= d <= L)%Z -> (0 <= (N + d) ÷ L - N ÷ L <= 1)%Z.
Proof.
  intros HL Hd.
  pose proof (Z.quot_rem' N L) as E1.
  pose proof (Z.quot_rem' (N + d) L) as E2.
  pose proof (Z.rem_bound_abs N L ltac:(lia)) as B1.
  pose proof (Z.rem_bound_abs (N + d) L ltac:(lia)) as B2.
  split.
  - pose proof (Z.quot_le_mono N (N + d) L HL ltac:(lia)). lia.
  - assert (HS : (L * ((N + d) ÷ L - N ÷ L) < 2 * L)%Z).
    { destruct (Z.le_gt_cases 0 N) as [HN|HN].
      - pose proof (Z.rem_nonneg (N + d) L ltac:(lia) ltac:(lia)). lia.
      - pose proof (Z.rem_nonpos N L ltac:(lia) ltac:(lia)). lia. }
    nia.
Qed.

Lemma sample_step (a0 a1 L : Z) (i : nat) :
  (0 < L)%Z -> (Z.abs (a1 - a0) <= L)%Z ->
  (Z.abs (sample a0 a1 L (S i) - sample a0 a1 L i) <= 1 /\
   0 <= (sample a0 a1 L (S i) - sample a0 a1 L i) * (a1 - a0))%Z.
Proof.
  intros HL Hd. unfold sample.
  set (N := (a0 * L + Z.of_nat i * (a1 - a0))%Z).
  replace (a0 * L + Z.of_nat (S i) * (a1 - a0))%Z with (N + (a1 - a0))%Z
    by (unfold N; lia).
  destruct (Z.le_ge_cases 0 (a1 - a0)) as [Hpos|Hneg].
  - pose proof (quot_step N (a1 - a0) L HL ltac:(lia)). nia.
  - pose proof (quot_step (N + (a1 - a0)) (- (a1 - a0)) L HL ltac:(lia)) as H.
    replace (N + (a1 - a0) + - (a1 - a0))%Z with N in H by ring. nia.
Qed.

Lemma span_bounds (x0 y0 z0 x1 y1 z1 : Z) :
  let m := span (x0, y0, z0) (x1, y1, z1) in
  (Z.abs (x1 - x0) <= m /\ Z.abs (y1 - y0) <= m /\ Z.abs (z1 - z0) <= m)%Z.
Proof. unfold span. lia. Qed.

(** X1.  Every point [_get_location] returns lies in the box spanned by the
    two endpoints: on each axis its coordinate is between the coordinates
    of [p0] and [p1]. *)
Theorem get_location_in_box
  (x0 y0 z0 x1 y1 z1 : Z) (xs ys zs : list Z) (px py pz : Z) :
  _get_location (x0, y0, z0) (x1, y1, z1) = Ok (xs, ys, zs) ->
  In (px, py, pz) (zip3 xs ys zs) ->
  (Z.min x0 x1 <= px <= Z.max x0 x1 /\
   Z.min y0 y1 <= py <= Z.max y0 y1 /\
   Z.min z0 z1 <= pz <= Z.max z0 z1)%Z.
Proof.
  intros Hloc Hin.
  destruct (get_location_points x0 y0 z0 x1 y1 z1)
    as (xs' & ys' & zs' & Hloc' & _ & _ & _ & Hzip).
  rewrite Hloc in Hloc'. injection Hloc' as <- <- <-.
  rewrite Hzip in Hin. apply in_map_iff in Hin.
  destruct Hin as (i & Heq & Hi). apply in_seq in Hi.
  assert (Hm : (0 < span (x0, y0, z0) (x1, y1, z1))%Z) by lia.
  assert (Hb : (Z.of_nat i <= span (x0, y0, z0) (x1, y1, z1))%Z) by lia.
  pose proof (sample_between x0 x1 _ i Hm Hb).
  pose proof (sample_between y0 y1 _ i Hm Hb).
  pose proof (sample_between z0 z1 _ i Hm Hb).
  injection Heq as <- <- <-. unfold span in *. repeat split; lia.
Qed.

Lemma get_location_in_box_witness :
  (Z.min 5 1 <= 3 <= Z.max 5 1 /\ Z.min 0 (-3) <= -1 <= Z.max 0 (-3) /\
   Z.min 0 0 <= 0 <= Z.max 0 0)%Z.
Proof.
  apply (get_location_in_box 5 0 0 1 (-3) 0
           [5; 4; 3; 2]%Z [0; 0; -1; -2]%Z [0; 0; 0; 0]%Z 3 (-1) 0).
  - reflexivity.
  - simpl. right. right. left. reflexivity.
Defined.

(** X2.  The line is connected and never turns back: from one point of
    [_get_location] to the next, every coordinate changes by at most one,
    and never away from the far endpoint. *)
Theorem get_location_connected
  (x0 y0 z0 x1 y1 z1 : Z) (xs ys zs : list Z) (i : nat) :
  _get_location (x0, y0, z0) (x1, y1, z1) = Ok (xs, ys, zs) ->
  (S i < length xs)%nat ->
  (Z.abs (nth (S i) xs 0 - nth i xs 0) <= 1 /\
   0 <= (nth (S i) xs 0 - nth i xs 0) * (x1 - x0) /\
   Z.abs (nth (S i) ys 0 - nth i ys 0) <= 1 /\
   0 <= (nth (S i) ys 0 - nth i ys 0) * (y1 - y0) /\
   Z.abs (nth (S i) zs 0 - nth i zs 0) <= 1 /\
   0 <= (nth (S i) zs 0 - nth i zs 0) * (z1 - z0))%Z.
Proof.
  intros Hloc Hi.
  destruct (get_location_points x0 y0 z0 x1 y1 z1)
    as (xs' & ys' & zs' & Hloc' & Hx & Hy & Hz & _).
  rewrite Hloc in Hloc'. injection Hloc' as <- <- <-.
  rewrite Hx in Hi. rewrite length_map, length_seq in Hi.
  rewrite Hx, Hy, Hz. rewrite !nth_map_seq by lia.
  assert (Hm : (0 < span (x0, y0, z0) (x1, y1, z1))%Z) by lia.
  destruct (span_bounds x0 y0 z0 x1 y1 z1) as (Bx & By & Bz).
  destruct (sample_step x0 x1 _ i Hm Bx).
  destruct (sample_step y0 y1 _ i Hm By).
  destruct (sample_step z0 z1 _ i Hm Bz).
  repeat split; assumption.
Qed.

Lemma get_location_connected_witness :
  (Z.abs (-1 - 0) <= 1 /\ 0 <= (-1 - 0) * (-3 - 0))%Z.
Proof.
  destruct (get_location_connected 5 0 0 1 (-3) 0
              [5; 4; 3; 2]%Z [0; 0; -1; -2]%Z [0; 0; 0; 0]%Z 1)
    as (_ & _ & H1 & H2 & _); [reflexivity | simpl; lia |].
  split; [exact H1 | exact H2].
Defined.

(** ** When registration succeeds *)

Lemma span_zero_iff (p q : point) : span p q = 0%Z <-> p = q.
Proof.
  destruct p as [[a b] c], q as [[a' b'] c']. unfold span. split.
  - intros H. f_equal; [f_equal|]; lia.
  - intros [= -> -> ->]. lia.
Qed.

Lemma cell_of_in_grid (sh : Z * Z * Z) (p : point) :
  in_grid sh p -> raises (cell_of sh p) = false.
Proof.
  destruct sh as [[nx ny] nz], p as [[px py] pz]. intros (Hx & Hy & Hz).
  unfold cell_of, locate, axis_index.
  destruct (Z.leb_spec 0 px), (Z.ltb_spec px nx); try lia.
  destruct (Z.leb_spec 0 py), (Z.ltb_spec py ny); try lia.
  destruct (Z.leb_spec 0 pz), (Z.ltb_spec pz nz); try lia.
  reflexivity.
Qed.

Lemma take_total (sh : Z * Z * Z) (a : cell -> xreal) (ps : list point) :
  (forall p, In p ps -> raises (cell_of sh p) = false) ->
  exists vs, take sh a ps 2 = Ok vs.
Proof.
  induction ps as [|[[px py] pz] ps IH]; intros H.
  - exists []. reflexivity.
  - destruct IH as (vs & Hvs); [intros p Hp; apply H; now right|].
    pose proof (H (px, py, pz) (or_introl eq_refl)) as Hc.
    unfold cell_of in Hc. simpl take.
    destruct (locate sh px py pz 2) as [c|e]; [|discriminate].
    rewrite Hvs. eexists. reflexivity.
Qed.

Lemma locate_raise (sh : Z * Z * Z) (px py pz c : Z) (e : exn) :
  locate sh px py pz c = Raise e -> e = IndexError.
Proof.
  destruct sh as [[nx ny] nz]. unfold locate.
  destruct (axis_index nx px), (axis_index ny py), (axis_index nz pz),
           (axis_index 3 c); intros [= <-]; reflexivity.
Qed.

Lemma take_raise (sh : Z * Z * Z) (a : cell -> xreal) (ps : list point)
  (e : exn) :
  take sh a ps 2 = Raise e ->
  e = IndexError /\ exists p, In p ps /\ raises (cell_of sh p) = true.
Proof.
  induction ps as [|[[px py] pz] ps IH]; [discriminate|].
  simpl take. destruct (locate sh px py pz 2) as [c|e'] eqn:Hc; simpl bind.
  - destruct (take sh a ps 2) as [vs|e'']; simpl bind; [discriminate|].
    intros [= <-]. destruct (IH eq_refl) as (-> & p & Hp & Hr).
    split; [reflexivity|]. exists p. split; [now right | exact Hr].
  - intros [= <-]. split; [exact (locate_raise _ _ _ _ _ _ Hc)|].
    exists (px, py, pz). split; [now left|]. unfold cell_of. rewrite Hc.
    reflexivity.
Qed.

Lemma item_middle (f : nat -> Z) (n : nat) :
  (0 < n)%nat -> item (map f (seq 0 n)) (n / 2) = Ok (f (n / 2)%nat).
Proof.
  intros Hn. unfold item. rewrite nth_error_map, nth_error_seq.
  assert (Hlt : (n / 2 < n)%nat) by (apply Nat.div_lt; lia).
  destruct (Nat.ltb_spec (n / 2) n); [reflexivity | lia].
Qed.

Lemma array_max_nonempty (l : list xreal) :
  (0 < length l)%nat -> exists v, array_max l = Ok v.
Proof.
  destruct l as [|a l]; simpl; [lia|]. intros _. eexists. reflexivity.
Qed.

(** How [register_grid] ends once the grid has resolved its three
    arguments: with the points of the line at hand, success or
    [IndexError]. *)
Lemma register_grid_cases (self : Source) (g : Grid) (t : Number) (p q : point) :
  _handle_time g (period self) = Ok t ->
  _handle_tuple g (p0 self) = Ok p ->
  _handle_tuple g (p1 self) = Ok q ->
  exists xs ys zs,
    _get_location p q = Ok (xs, ys, zs) /\
    length xs = Z.to_nat (span p q) /\
    ((exists s, register_grid self g = Ok s /\
                x s = xs /\ y s = ys /\ z s = zs) /\
     p <> q /\
     (forall pt, In pt (zip3 xs ys zs) -> raises (cell_of (shape g) pt) = false)
     \/
     register_grid self g = Raise IndexError /\
     (p = q \/
      exists pt, In pt (zip3 xs ys zs) /\ raises (cell_of (shape g) pt) = true)).
Proof.
  intros Ht Hp Hq. destruct p as [[a0 b0] c0], q as [[a1 b1] c1].
  do 3 eexists. split; [apply get_location_eq|].
  split; [rewrite length_map, length_seq; reflexivity|].
  unfold register_grid. rewrite Ht, Hp, Hq. cbn [bind].
  rewrite get_location_eq. cbn [bind].
  set (m := span (a0, b0, c0) (a1, b1, c1)).
  set (n := Z.to_nat m).
  rewrite length_map, length_seq.
  destruct (take (shape g) (inverse_permittivity g)
              (zip3 (map (sample a0 a1 m) (seq 0 n))
                    (map (sample b0 b1 m) (seq 0 n))
                    (map (sample c0 c1 m) (seq 0 n))) 2) as [eps|e] eqn:Heps;
    cbn [bind].
  - destruct (Nat.eq_dec n 0) as [Hn0|Hn0].
    + right. rewrite Hn0. split; [reflexivity|]. left.
      apply span_zero_iff. fold m. pose proof (span_nonneg (a0, b0, c0) (a1, b1, c1)).
      fold m in H. unfold n in Hn0. lia.
    + left. rewrite !item_middle by lia. cbn [bind].
      rewrite distances_sq_dist, zip3_map.
      split; [|split].
      * match goal with |- context [array_max ?l] =>
          destruct (array_max_nonempty l) as (v & Hv);
            [rewrite !length_map, length_seq; lia | rewrite Hv]
        end.
        cbn [bind]. eexists. split; [reflexivity|].
        cbn [x y z]. repeat split.
      * intros Heq. apply span_zero_iff in Heq. fold m in Heq.
        unfold n in *. lia.
      * apply take_ok in Heps. destruct Heps as [_ Hcells].
        intros pt Hin. destruct (In_nth _ pt origin Hin) as (i & Hi & <-).
        rewrite zip3_map in Hcells.
        destruct (Hcells i Hi) as (c & -> & _). reflexivity.
  - right. apply take_raise in Heps. destruct Heps as (-> & pt & Hin & Hr).
    split; [reflexivity|]. right. exists pt. split; assumption.
Qed.

(** X3.  Once the grid has resolved the period and both endpoints,
    [register_grid] succeeds exactly when the endpoints differ and every
    point of the line is an index of the grid; the only exception it raises
    otherwise is [IndexError]. *)
Theorem registration_outcome
  (self : Source) (g : Grid) (t : Number) (p q : point) :
  _handle_time g (period self) = Ok t ->
  _handle_tuple g (p0 self) = Ok p ->
  _handle_tuple g (p1 self) = Ok q ->
  exists xs ys zs,
    _get_location p q = Ok (xs, ys, zs) /\
    (raises (register_grid self g) = false <->
     p <> q /\
     forall pt, In pt (zip3 xs ys zs) -> raises (cell_of (shape g) pt) = false) /\
    (forall e, register_grid self g = Raise e -> e = IndexError).
Proof.
  intros Ht Hp Hq.
  destruct (register_grid_cases self g t p q Ht Hp Hq)
    as (xs & ys & zs & Hloc & _ & H).
  exists xs, ys, zs. split; [exact Hloc|].
  destruct H as [((s & Hs & _) & Hne & Hall) | (Hr & Hwhy)].
  - rewrite Hs. split; [|discriminate].
    split; [intros _; split; assumption | reflexivity].
  - rewrite Hr. split; [|intros e [= <-]; reflexivity].
    split; [discriminate|]. intros (Hne & Hall).
    destruct Hwhy as [Heq | (pt & Hin & Hpt)]; [contradiction|].
    rewrite (Hall pt Hin) in Hpt. discriminate.
Qed.

Lemma registration_outcome_witness :
  raises (register_grid line4 grid4) = false.
Proof.
  destruct (registration_outcome line4 grid4 (PyInt 4) (0, 0, 0)%Z (4, 0, 0)%Z)
    as (xs & ys & zs & Hloc & Hiff & _);
    [reflexivity | reflexivity | reflexivity |].
  apply Hiff. split; [discriminate|].
  injection Hloc as <- <- <-. intros pt Hin. simpl in Hin.
  destruct Hin as [<-|[<-|[<-|[<-|[]]]]]; reflexivity.
Defined.

(** X4.  When both endpoints resolve to different points on the grid,
    [register_grid] succeeds, and the registered line has
    [max(|dx|, |dy|, |dz|)] points. *)
Theorem registration_inside_grid
  (self : Source) (g : Grid) (t : Number) (p q : point) :
  _handle_time g (period self) = Ok t ->
  _handle_tuple g (p0 self) = Ok p ->
  _handle_tuple g (p1 self) = Ok q ->
  in_grid (shape g) p -> in_grid (shape g) q -> p <> q ->
  exists s,
    register_grid self g = Ok s /\
    length (x s) = Z.to_nat (span p q) /\
    forall pt, In pt (zip3 (x s) (y s) (z s)) -> in_grid (shape g) pt.
Proof.
  intros Ht Hp Hq Gp Gq Hne.
  destruct (register_grid_cases self g t p q Ht Hp Hq)
    as (xs & ys & zs & Hloc & Hlen & H).
  assert (Hbox : forall pt, In pt (zip3 xs ys zs) -> in_grid (shape g) pt).
  { destruct p as [[a0 b0] c0], q as [[a1 b1] c1].
    destruct (get_location_points a0 b0 c0 a1 b1 c1)
      as (xs' & ys' & zs' & Hloc' & _ & _ & _ & Hzip).
    rewrite Hloc in Hloc'. injection Hloc' as <- <- <-.
    intros pt Hin. rewrite Hzip in Hin. apply in_map_iff in Hin.
    destruct Hin as (i & <- & Hi). apply in_seq in Hi.
    assert (Hm : (0 < span (a0, b0, c0) (a1, b1, c1))%Z) by lia.
    assert (Hb : (Z.of_nat i <= span (a0, b0, c0) (a1, b1, c1))%Z) by lia.
    pose proof (sample_between a0 a1 _ i Hm Hb).
    pose proof (sample_between b0 b1 _ i Hm Hb).
    pose proof (sample_between c0 c1 _ i Hm Hb).
    destruct (shape g) as [[nx ny] nz]. unfold in_grid in *. lia. }
  destruct H as [((s & Hs & <- & <- & <-) & _ & _) | (_ & Hwhy)].
  - exists s. repeat split; assumption.
  - exfalso. destruct Hwhy as [Heq | (pt & Hin & Hpt)]; [contradiction|].
    rewrite (cell_of_in_grid _ _ (Hbox pt Hin)) in Hpt. discriminate.
Qed.

Lemma registration_inside_grid_witness :
  exists s, register_grid line3 grid4 = Ok s /\ length (x s) = 3%nat.
Proof.
  destruct (registration_inside_grid line3 grid4 (PyInt 4)
              (0, 0, 0)%Z (3, 0, 0)%Z) as (s & Hs & Hlen & _);
    try reflexivity; try (simpl; lia); try discriminate.
  exists s. split; [exact Hs | exact Hlen].
Defined.

(** ** The values of the profile *)

Lemma xmul_NaN_r (a : xreal) : xmul a NaN = NaN.
Proof. destruct a; reflexivity. Qed.

Lemma two_points_dmax_pos (self s : Source) (g : Grid) :
  register_grid self g = Ok s ->
  (2 <= length (x s))%nat ->
  (0 < spec_dmax (zip3 (x s) (y s) (z s)))%Z.
Proof.
  intros Hreg H2.
  destruct (registered_lengths self s g Hreg) as (_ & Hx & _).
  pose proof (spec_dmax_nonneg (zip3 (x s) (y s) (z s))) as Hnn.
  destruct (Z.eq_dec (spec_dmax (zip3 (x s) (y s) (z s))) 0) as [E0|Hne];
    [|lia].
  destruct (dmax_zero_profile self s g Hreg E0) as [Hone _]. lia.
Qed.

Lemma cell_of_unique (sh : Z * Z * Z) (p : point) (c c' : cell) :
  cell_of sh p = Ok c -> cell_of sh p = Ok c' -> c = c'.
Proof. intros H H'. rewrite H in H'. injection H' as <-. reflexivity. Qed.

(** An entry of the profile where the medium gives a finite, non-negative
    amplitude: the normalized weight times that amplitude. *)
Lemma profile_entry_finite
  (self s : Source) (g : Grid) (pw e : R) (i : nat) (c : cell) :
  register_grid self g = Ok s ->
  let coords := zip3 (x s) (y s) (z s) in
  (0 < spec_dmax coords)%Z ->
  power s = Fin pw ->
  (i < length coords)%nat ->
  cell_of (shape g) (nth i coords origin) = Ok c ->
  inverse_permittivity g c = Fin e ->
  (0 <= pw * e)%R ->
  nth i (profile s) NaN = Fin (spec_weight coords i * sqrt (pw * e)).
Proof.
  intros Hreg coords Hpos Hpw Hi Hc He Hamp.
  destruct (profile_finite self s g Hreg Hpos) as [_ Hnth].
  destruct (Hnth i Hi) as (c' & Hc' & ->).
  rewrite (cell_of_unique _ _ _ _ Hc' Hc), He, Hpw.
  unfold spec_profile. unfold xmul at 2. unfold xsqrt.
  destruct (Rlt_dec (pw * e) 0) as [Habs|_]; [lra|]. reflexivity.
Qed.

Lemma weight_le_sum (ws : list R) (w : R) :
  Forall (fun v => 0 < v)%R ws -> In w ws -> (w <= Rsum ws)%R.
Proof.
  induction 1 as [|v ws Hv Hall IH]; intros Hin; [contradiction|].
  simpl. assert (0 <= Rsum ws)%R.
  { clear -Hall. induction Hall as [|u us Hu _ IHu]; simpl; lra. }
  destruct Hin as [->|Hin]; [lra|]. specialize (IH Hin). lra.
Qed.

Lemma spec_weight_bounds (coords : list point) (i : nat) :
  (i < length coords)%nat -> (0 < spec_weight coords i <= 1)%R.
Proof.
  intros Hi. unfold spec_weight.
  assert (HS : (0 < Rsum (map (spec_w coords) (seq 0 (length coords))))%R)
    by (apply weights_sum_pos; lia).
  assert (Hw : (0 < spec_w coords i)%R) by apply exp_pos.
  assert (Hle : (spec_w coords i
                 <= Rsum (map (spec_w coords) (seq 0 (length coords))))%R).
  { apply weight_le_sum.
    - apply Forall_forall. intros v Hv. apply in_map_iff in Hv.
      destruct Hv as (k & <- & _). apply exp_pos.
    - apply in_map. apply in_seq. lia. }
  split.
  - apply Rdiv_lt_0_compat; assumption.
  - apply Rmult_le_reg_r with (r := Rsum (map (spec_w coords)
                                           (seq 0 (length coords))));
      [exact HS|].
    unfold Rdiv. rewrite Rmult_assoc, Rinv_l by lra. lra.
Qed.

(** X5.  Where the power times the inverse permittivity of a point is
    negative, registration raises nothing and the profile entry of that
    point is not-a-number. *)
Theorem negative_amplitude_is_nan
  (self s : Source) (g : Grid) (pw e : R) (i : nat) (c : cell) :
  register_grid self g = Ok s ->
  power s = Fin pw ->
  (i < length (zip3 (x s) (y s) (z s)))%nat ->
  cell_of (shape g) (nth i (zip3 (x s) (y s) (z s)) origin) = Ok c ->
  inverse_permittivity g c = Fin e ->
  (pw * e < 0)%R ->
  nth i (profile s) NaN = NaN.
Proof.
  intros Hreg Hpw Hi Hc He Hneg.
  destruct (registered_profile self s g Hreg) as (_ & _ & _ & Hnth).
  destruct (Hnth i Hi) as (c' & Hc' & ->).
  rewrite (cell_of_unique _ _ _ _ Hc' Hc), He, Hpw.
  unfold xmul at 2. unfold xsqrt.
  destruct (Rlt_dec (pw * e) 0) as [_|Habs]; [|lra].
  apply xmul_NaN_r.
Qed.

Lemma negative_amplitude_is_nan_witness :
  nth 0 (profile (registered (reconfigure line4 (PyInt 4) (Fin (-1))) grid4)) NaN
  = NaN.
Proof.
  apply (negative_amplitude_is_nan (reconfigure line4 (PyInt 4) (Fin (-1)))
           _ grid4 (-1) 1 0 (0, 0, 0, 2)%Z); try reflexivity.
  - simpl. lia.
  - lra.
Defined.

(** X6.  On a line of at least two points, where the power times the
    inverse permittivity of a point is finite and not negative, the profile
    entry of that point is a finite number between 0 and the amplitude
    [sqrt(power * inverse_permittivity)]. *)
Theorem profile_entry_bounded
  (self s : Source) (g : Grid) (pw e : R) (i : nat) (c : cell) :
  register_grid self g = Ok s ->
  (2 <= length (x s))%nat ->
  power s = Fin pw ->
  (i < length (zip3 (x s) (y s) (z s)))%nat ->
  cell_of (shape g) (nth i (zip3 (x s) (y s) (z s)) origin) = Ok c ->
  inverse_permittivity g c = Fin e ->
  (0 <= pw * e)%R ->
  exists r, nth i (profile s) NaN = Fin r /\ (0 <= r <= sqrt (pw * e))%R.
Proof.
  intros Hreg H2 Hpw Hi Hc He Hamp.
  pose proof (two_points_dmax_pos self s g Hreg H2) as Hpos.
  rewrite (profile_entry_finite self s g pw e i c Hreg Hpos Hpw Hi Hc He Hamp).
  eexists. split; [reflexivity|].
  pose proof (spec_weight_bounds _ i Hi) as Hw.
  pose proof (sqrt_pos (pw * e)) as Hs. nra.
Qed.

Lemma profile_entry_bounded_witness :
  exists r, nth 0 (profile (registered line4 grid4)) NaN = Fin r /\
            (0 <= r <= sqrt (1 * 1))%R.
Proof.
  apply (profile_entry_bounded line4 _ grid4 1 1 0 (0, 0, 0, 2)%Z);
    try reflexivity.
  - simpl. lia.
  - simpl. lia.
  - lra.
Defined.

Lemma spec_w_antitone (coords : list point) (i j : nat) :
  (0 < spec_dmax coords)%Z ->
  (spec_d coords i <= spec_d coords j)%Z ->
  (spec_w coords j <= spec_w coords i)%R.
Proof.
  intros Hpos Hd. unfold spec_w.
  assert (HD : (0 < IZR (spec_dmax coords))%R) by (apply IZR_lt; exact Hpos).
  assert (Hden : (0 < 2 * (0.5 * IZR (spec_dmax coords)) ^ 2)%R) by nra.
  pose proof (IZR_le _ _ (spec_d_nonneg coords i)) as Hi.
  pose proof (IZR_le _ _ Hd) as Hij.
  assert (Harg : (- IZR (spec_d coords j) ^ 2
                    / (2 * (0.5 * IZR (spec_dmax coords)) ^ 2)
                  <= - IZR (spec_d coords i) ^ 2
                       / (2 * (0.5 * IZR (spec_dmax coords)) ^ 2))%R).
  { unfold Rdiv. apply Rmult_le_compat_r.
    - apply Rlt_le. apply Rinv_0_lt_compat. exact Hden.
    - nra. }
  destruct Harg as [Hlt|Heq].
  - apply Rlt_le. apply exp_increasing. exact Hlt.
  - rewrite Heq. apply Rle_refl.
Qed.

Lemma spec_d_middle (coords : list point) :
  spec_d coords (length coords / 2) = 0%Z.
Proof. unfold spec_d. apply sq_dist_same. Qed.

(** X7.  In a medium that is uniform along a line of at least two points,
    with a finite amplitude that is not negative, the profile falls with the
    squared index distance from the point at index [L // 2]: a point no
    farther than another has a weight no smaller, so the entry at index
    [L // 2] is the largest. *)
Theorem profile_peaks_at_middle
  (self s : Source) (g : Grid) (pw e : R) :
  register_grid self g = Ok s ->
  (2 <= length (x s))%nat ->
  power s = Fin pw ->
  let coords := zip3 (x s) (y s) (z s) in
  let L := length coords in
  (forall k c, (k < L)%nat ->
     cell_of (shape g) (nth k coords origin) = Ok c ->
     inverse_permittivity g c = Fin e) ->
  (0 <= pw * e)%R ->
  (forall i j, (i < L)%nat -> (j < L)%nat ->
     (spec_d coords i <= spec_d coords j)%Z ->
     exists ri rj,
       nth i (profile s) NaN = Fin ri /\ nth j (profile s) NaN = Fin rj /\
       (rj <= ri)%R) /\
  (forall j, (j < L)%nat ->
     exists rm rj,
       nth (L / 2) (profile s) NaN = Fin rm /\ nth j (profile s) NaN = Fin rj /\
       (rj <= rm)%R).
Proof.
  intros Hreg H2 Hpw coords L Huni Hamp.
  pose proof (two_points_dmax_pos self s g Hreg H2) as Hpos.
  fold coords in Hpos.
  destruct (registered_lengths self s g Hreg) as (HL & _ & _ & _ & _ & _ & _ & Hcells).
  fold coords in HL, Hcells. fold L in HL, Hcells.
  assert (Hentry : forall k, (k < L)%nat ->
            nth k (profile s) NaN = Fin (spec_weight coords k * sqrt (pw * e))).
  { intros k Hk. destruct (Hcells k Hk) as (c & Hc).
    exact (profile_entry_finite self s g pw e k c Hreg Hpos Hpw Hk Hc
             (Huni k c Hk Hc) Hamp). }
  assert (Hmono : forall i j, (i < L)%nat -> (j < L)%nat ->
            (spec_d coords i <= spec_d coords j)%Z ->
            (spec_weight coords j * sqrt (pw * e)
             <= spec_weight coords i * sqrt (pw * e))%R).
  { intros i j Hi Hj Hd. apply Rmult_le_compat_r; [apply sqrt_pos|].
    unfold spec_weight, Rdiv. apply Rmult_le_compat_r.
    - apply Rlt_le. apply Rinv_0_lt_compat. apply weights_sum_pos. exact HL.
    - apply spec_w_antitone; assumption. }
  split.
  - intros i j Hi Hj Hd. do 2 eexists.
    split; [apply Hentry; exact Hi|]. split; [apply Hentry; exact Hj|].
    apply Hmono; assumption.
  - intros j Hj.
    assert (Hmid : (L / 2 < L)%nat) by (apply Nat.div_lt; lia).
    do 2 eexists.
    split; [apply Hentry; exact Hmid|]. split; [apply Hentry; exact Hj|].
    apply Hmono; try assumption.
    unfold L. rewrite spec_d_middle. apply spec_d_nonneg.
Qed.

Lemma profile_peaks_at_middle_witness :
  exists rm rj,
    nth 2 (profile (registered line4 grid4)) NaN = Fin rm /\
    nth 0 (profile (registered line4 grid4)) NaN = Fin rj /\ (rj <= rm)%R.
Proof.
  refine (proj2 (profile_peaks_at_middle line4 (registered line4 grid4) grid4
                   1 1 _ _ _ _ _) 0%nat _); try reflexivity.
  - simpl. lia.
  - lra.
  - simpl. lia.
Defined.

Lemma Rsum_map_mul {A : Type} (f : A -> R) (c : R) (l : list A) :
  Rsum (map (fun a => f a * c)%R l) = (Rsum (map f l) * c)%R.
Proof.
  induction l as [|a l IH]; simpl; [ring|]. rewrite IH. ring.
Qed.

(** X8.  In a medium that is uniform along a line of at least two points,
    with a finite amplitude that is not negative, the entries of the
    profile add up to the amplitude [sqrt(power * inverse_permittivity)]:
    the weights are normalized before they are scaled. *)
Theorem profile_sum_is_amplitude
  (self s : Source) (g : Grid) (pw e : R) :
  register_grid self g = Ok s ->
  (2 <= length (x s))%nat ->
  power s = Fin pw ->
  (forall k c, (k < length (zip3 (x s) (y s) (z s)))%nat ->
     cell_of (shape g) (nth k (zip3 (x s) (y s) (z s)) origin) = Ok c ->
     inverse_permittivity g c = Fin e) ->
  (0 <= pw * e)%R ->
  array_sum (profile s) = Fin (sqrt (pw * e)).
Proof.
  intros Hreg H2 Hpw Huni Hamp.
  pose proof (two_points_dmax_pos self s g Hreg H2) as Hpos.
  destruct (registered_lengths self s g Hreg)
    as (HL & _ & _ & _ & _ & Hpl & _ & Hcells).
  set (coords := zip3 (x s) (y s) (z s)) in *.
  set (L := length coords) in *.
  assert (Hprof : profile s
    = map Fin (map (fun k => spec_weight coords k * sqrt (pw * e))%R (seq 0 L))).
  { apply (nth_ext _ _ NaN NaN).
    - rewrite !length_map, length_seq. exact Hpl.
    - intros k Hk. rewrite Hpl in Hk.
      destruct (Hcells k Hk) as (c & Hc).
      rewrite (profile_entry_finite self s g pw e k c Hreg Hpos Hpw Hk Hc
                 (Huni k c Hk Hc) Hamp).
      rewrite map_map.
      rewrite (nth_map_in (fun k => Fin (spec_weight coords k * sqrt (pw * e)))
                 _ _ _ 0%nat) by (rewrite length_seq; exact Hk).
      rewrite seq_nth by exact Hk. reflexivity. }
  rewrite Hprof, array_sum_Fin. f_equal.
  rewrite (Rsum_map_mul (spec_weight coords)).
  destruct (profile_finite self s g Hreg Hpos) as [Hone _].
  fold coords in Hone. fold L in Hone. rewrite Hone. ring.
Qed.

Lemma profile_sum_is_amplitude_witness :
  array_sum (profile (registered line4 grid4)) = Fin (sqrt (1 * 1)).
Proof.
  apply (profile_sum_is_amplitude line4 (registered line4 grid4) grid4 1 1);
    try reflexivity.
  - simpl. lia.
  - lra.
Defined.

(** ** How [update_E] ends *)

Lemma waveform_outcome (s : Source) (q : Z) :
  (waveform s q = Raise ZeroDivisionError <-> to_float (period s) = Fin 0) /\
  (waveform s q = Raise ValueError <->
   to_float (period s) <> Fin 0 /\ to_float (period s) <> NaN /\
   (phase_shift s = PInf \/ phase_shift s = NInf)) /\
  (forall e, waveform s q = Raise e -> e = ZeroDivisionError \/ e = ValueError).
Proof.
  unfold waveform, py_truediv.
  destruct (to_float (period s)) as [T| | |] eqn:HT.
  - destruct (Req_dec_T T 0) as [->|HT0]; cbn [bind].
    + split; [split; reflexivity|]. split.
      * split; [discriminate|]. intros (H & _). contradiction.
      * intros e [= <-]. now left.
    + unfold xmul, xdiv. destruct (Req_dec_T T 0) as [E0|_]; [contradiction|].
      assert (Hne : Fin T <> Fin 0) by (intros [= E0]; contradiction).
      destruct (phase_shift s) as [phi| | |]; simpl;
        (split; [split; [discriminate | intros E0; contradiction]|]);
        (split; [split; [try discriminate; intros _;
                         repeat split; try discriminate; auto
                        | try reflexivity;
                          intros (_ & _ & [Hp|Hp]); discriminate]
                | intros e He; try discriminate; injection He as <-;
                  now right]).
  - unfold xmul, xdiv.
    destruct (phase_shift s) as [phi| | |]; simpl;
      (split; [split; discriminate|]);
      (split; [split; [try discriminate; intros _;
                       repeat split; try discriminate; auto
                      | try reflexivity;
                        intros (_ & _ & [Hp|Hp]); discriminate]
              | intros e He; try discriminate; injection He as <-;
                now right]).
  - unfold xmul, xdiv.
    destruct (phase_shift s) as [phi| | |]; simpl;
      (split; [split; discriminate|]);
      (split; [split; [try discriminate; intros _;
                       repeat split; try discriminate; auto
                      | try reflexivity;
                        intros (_ & _ & [Hp|Hp]); discriminate]
              | intros e He; try discriminate; injection He as <-;
                now right]).
  - unfold xmul, xdiv. simpl.
    split; [split; discriminate|]. split.
    + split; [discriminate|]. intros (_ & H & _). contradiction.
    + discriminate.
Qed.

(** X9.  On a registered source [update_E] is all or nothing: it either
    completes without an exception, or raises before the first write and
    leaves the grid as it was.  It raises [ZeroDivisionError] exactly when
    the period is zero, [ValueError] exactly when the period is neither
    zero nor not-a-number and the phase shift is infinite, and nothing
    else. *)
Theorem update_E_all_or_nothing (self s : Source) (g0 g : Grid) :
  register_grid self g0 = Ok s ->
  shape g = shape g0 ->
  (snd (update_E s g) = None \/
   update_E s g = (g, Some ZeroDivisionError) \/
   update_E s g = (g, Some ValueError)) /\
  (snd (update_E s g) = Some ZeroDivisionError <->
   to_float (period s) = Fin 0) /\
  (snd (update_E s g) = Some ValueError <->
   to_float (period s) <> Fin 0 /\ to_float (period s) <> NaN /\
   (phase_shift s = PInf \/ phase_shift s = NInf)).
Proof.
  intros Hreg Hsh.
  destruct (registered_lengths self s g0 Hreg)
    as (_ & _ & _ & _ & _ & _ & Hg & Hcells).
  rewrite <- Hsh in Hcells.
  destruct (waveform_outcome s (timesteps_passed g)) as (Hz & Hv & Hothers).
  destruct (waveform s (timesteps_passed g)) as [w|e] eqn:Hw.
  - destruct (update_E_run s g w Hg Hw Hcells) as (field' & -> & _).
    cbn [snd]. split; [now left|]. split.
    + split; [discriminate|]. intros H. apply Hz in H. discriminate.
    + split; [discriminate|]. intros H. apply Hv in H. discriminate.
  - assert (Hrun : update_E s g = (g, Some e)).
    { unfold update_E. rewrite Hg, Hw. reflexivity. }
    rewrite Hrun. cbn [snd].
    destruct (Hothers e eq_refl) as [-> | ->].
    + split; [right; now left|]. split.
      * split; [intros _; apply Hz; reflexivity | reflexivity].
      * split; [discriminate|]. intros H. apply Hv in H. discriminate.
    + split; [right; now right|]. split.
      * split; [discriminate|]. intros H. apply Hz in H. discriminate.
      * split; [intros _; apply Hv; reflexivity | reflexivity].
Qed.

Lemma update_E_all_or_nothing_witness :
  update_E (registered (reconfigure line4 (PyInt 0) (Fin 1)) grid4) grid4
  = (grid4, Some ZeroDivisionError).
Proof.
  destruct (update_E_all_or_nothing (reconfigure line4 (PyInt 0) (Fin 1))
              (registered (reconfigure line4 (PyInt 0) (Fin 1)) grid4)
              grid4 grid4 eq_refl eq_refl) as (Hcases & Hz & _).
  assert (H : snd (update_E (registered (reconfigure line4 (PyInt 0) (Fin 1))
                               grid4) grid4) = Some ZeroDivisionError)
    by (apply Hz; reflexivity).
  destruct Hcases as [Hn | [Hzd | Hve]].
  - rewrite Hn in H. discriminate.
  - exact Hzd.
  - rewrite Hve in H. discriminate.
Defined.

Lemma xadd_NaN_r (a : xreal) : xadd a NaN = NaN.
Proof. destruct a; reflexivity. Qed.

Lemma xadd_zero_r (a : xreal) : xadd a (Fin 0) = a.
Proof. destruct a; simpl; try reflexivity. f_equal. ring. Qed.

Lemma fold_xadd_zeros (l : list xreal) (a : xreal) :
  Forall (eq (Fin 0)) l -> fold_left xadd l a = a.
Proof.
  intros H. revert a. induction H as [|v l <- _ IH]; intros a; simpl;
    [reflexivity|].
  rewrite xadd_zero_r. apply IH.
Qed.

Lemma contributions_in (sh : Z * Z * Z) (c : cell)
  (ps : list point) (vs : list xreal) (v : xreal) :
  In v (contributions sh c (combine ps vs)) -> In v vs.
Proof.
  unfold contributions. intros H. apply in_map_iff in H.
  destruct H as ([p v'] & <- & Hin). apply filter_In in Hin.
  destruct Hin as [Hin _]. apply in_combine_r in Hin. exact Hin.
Qed.

(** X10.  A registered single-point source spoils its cell: after an
    [update_E] with a finite non-zero period and a finite phase shift, the
    field value of the cell the point addresses is not-a-number, whatever
    it was before. *)
Theorem single_point_update_writes_nan
  (self s : Source) (g0 g : Grid) (T phi : R) :
  register_grid self g0 = Ok s ->
  length (zip3 (x s) (y s) (z s)) = 1%nat ->
  shape g = shape g0 ->
  to_float (period s) = Fin T -> T <> 0%R ->
  phase_shift s = Fin phi ->
  exists c,
    cell_of (shape g) (nth 0 (zip3 (x s) (y s) (z s)) origin) = Ok c /\
    snd (update_E s g) = None /\
    E (fst (update_E s g)) c = NaN.
Proof.
  intros Hreg Hone Hsh HT HT0 Hphi.
  destruct (registered_lengths self s g0 Hreg)
    as (_ & _ & _ & _ & _ & _ & Hg & Hcells).
  rewrite <- Hsh in Hcells.
  destruct (dmax_zero_profile self s g0 Hreg (single_point_dmax _ Hone))
    as [_ Hprof].
  pose proof (waveform_finite s (timesteps_passed g) T phi HT HT0 Hphi) as Hw.
  destruct (update_E_run s g _ Hg Hw Hcells) as (field' & Hrun & Hval).
  destruct (Hcells 0%nat ltac:(lia)) as (c & Hc). exists c.
  split; [exact Hc|]. rewrite Hrun. cbn [fst snd E set_E].
  split; [reflexivity|]. rewrite Hval, Hprof.
  destruct (zip3 (x s) (y s) (z s)) as [|p [|p' ps]]; try discriminate.
  simpl in Hc. unfold contributions. simpl. unfold hits. simpl fst.
  rewrite Hc, cell_eqb_refl. simpl. apply xadd_NaN_r.
Qed.

Lemma single_point_update_writes_nan_witness :
  exists c, E (fst (update_E (registered line1 grid4) grid4)) c = NaN.
Proof.
  destruct (single_point_update_writes_nan line1 (registered line1 grid4)
              grid4 grid4 4 0) as (c & _ & _ & H); try reflexivity; [lra|].
  exists c. exact H.
Defined.

(** X11.  A source of zero power injects nothing: registered on a line of
    at least two points in a medium of finite inverse permittivity, its
    profile is zero everywhere, and an [update_E] with a finite non-zero
    period and a finite phase shift leaves every value of the field array as
    it was. *)
Theorem zero_power_injects_nothing
  (self s : Source) (g0 g : Grid) (T phi : R) :
  register_grid self g0 = Ok s ->
  (2 <= length (x s))%nat ->
  power s = Fin 0 ->
  (forall k c, (k < length (zip3 (x s) (y s) (z s)))%nat ->
     cell_of (shape g0) (nth k (zip3 (x s) (y s) (z s)) origin) = Ok c ->
     exists e, inverse_permittivity g0 c = Fin e) ->
  shape g = shape g0 ->
  to_float (period s) = Fin T -> T <> 0%R ->
  phase_shift s = Fin phi ->
  Forall (eq (Fin 0)) (profile s) /\
  snd (update_E s g) = None /\
  forall c, E (fst (update_E s g)) c = E g c.
Proof.
  intros Hreg H2 Hpw Hfin Hsh HT HT0 Hphi.
  pose proof (two_points_dmax_pos self s g0 Hreg H2) as Hpos.
  destruct (registered_lengths self s g0 Hreg)
    as (_ & _ & _ & _ & _ & Hpl & Hg & Hcells).
  assert (Hzero : Forall (eq (Fin 0)) (profile s)).
  { apply Forall_forall. intros v Hv.
    destruct (In_nth _ v NaN Hv) as (k & Hk & <-). rewrite Hpl in Hk.
    destruct (Hcells k Hk) as (c & Hc). destruct (Hfin k c Hk Hc) as (e & He).
    rewrite (profile_entry_finite self s g0 0 e k c Hreg Hpos Hpw Hk Hc He)
      by lra.
    f_equal. replace (0 * e)%R with 0%R by ring. rewrite sqrt_0. ring. }
  split; [exact Hzero|].
  rewrite <- Hsh in Hcells.
  pose proof (waveform_finite s (timesteps_passed g) T phi HT HT0 Hphi) as Hw.
  destruct (update_E_run s g _ Hg Hw Hcells) as (field' & Hrun & Hval).
  rewrite Hrun. cbn [fst snd E set_E]. split; [reflexivity|].
  intros c. rewrite Hval. apply fold_xadd_zeros.
  apply Forall_forall. intros v Hv. apply contributions_in in Hv.
  apply in_map_iff in Hv. destruct Hv as (pv & <- & Hin).
  rewrite Forall_forall in Hzero. rewrite <- (Hzero pv Hin).
  unfold xmul. f_equal. ring.
Qed.

Lemma zero_power_injects_nothing_witness :
  E (fst (update_E (registered (reconfigure line4 (PyInt 4) (Fin 0)) grid4)
                   grid4)) (0, 0, 0, 2)%Z
  = E grid4 (0, 0, 0, 2)%Z.
Proof.
  refine (proj2 (proj2 (zero_power_injects_nothing
            (reconfigure line4 (PyInt 4) (Fin 0))
            (registered (reconfigure line4 (PyInt 4) (Fin 0)) grid4)
            grid4 grid4 4 0 _ _ _ _ _ _ _ _)) (0, 0, 0, 2)%Z); try reflexivity.
  - simpl. lia.
  - intros k c _ _. exists 1%R. reflexivity.
  - lra.
Defined.

(** ** Straight lines and the stored distances *)

(** X12.  On a line along an axis or a diagonal the points are exact:
    point [i] is the start moved [i] times by the sign of the difference of
    the endpoints on every axis. *)
Theorem straight_line_points
  (x0 y0 z0 x1 y1 z1 : Z) (xs ys zs : list Z) (i : nat) :
  _get_location (x0, y0, z0) (x1, y1, z1) = Ok (xs, ys, zs) ->
  straight (x0, y0, z0) (x1, y1, z1) ->
  (i < length xs)%nat ->
  nth i (zip3 xs ys zs) origin
  = (x0 + Z.sgn (x1 - x0) * Z.of_nat i,
     y0 + Z.sgn (y1 - y0) * Z.of_nat i,
     z0 + Z.sgn (z1 - z0) * Z.of_nat i)%Z.
Proof.
  intros Hloc (Hx & Hy & Hz) Hi.
  destruct (get_location_points x0 y0 z0 x1 y1 z1)
    as (xs' & ys' & zs' & Hloc' & Hxs & _ & _ & Hzip).
  rewrite Hloc in Hloc'. injection Hloc' as <- <- <-.
  rewrite Hxs, length_map, length_seq in Hi.
  rewrite Hzip, nth_map_seq by exact Hi.
  set (m := span (x0, y0, z0) (x1, y1, z1)) in *.
  assert (Hm : (0 < m)%Z) by lia.
  assert (Hstep : forall a0 a1, Z.abs (a1 - a0) = m \/ a1 = a0 ->
            sample a0 a1 m i = (a0 + Z.sgn (a1 - a0) * Z.of_nat i)%Z).
  { intros a0 a1 Ha. apply sample_unit_step; [exact Hm|]. lia. }
  rewrite (Hstep x0 x1 Hx), (Hstep y0 y1 Hy), (Hstep z0 z1 Hz). reflexivity.
Qed.

Lemma straight_line_points_witness :
  nth 2 (zip3 [5; 4; 3]%Z [0; 1; 2]%Z [7; 7; 7]%Z) origin
  = (5 + Z.sgn (2 - 5) * 2, 0 + Z.sgn (3 - 0) * 2, 7 + Z.sgn (7 - 7) * 2)%Z.
Proof.
  apply (straight_line_points 5 0 7 2 3 7 [5; 4; 3]%Z [0; 1; 2]%Z [7; 7; 7]%Z 2).
  - reflexivity.
  - unfold straight, span. simpl. lia.
  - simpl. lia.
Defined.

(** X13.  The distances a registered source keeps in [vect] are the squared
    index distances to the point at index [L // 2]: whole numbers, zero at
    index [L // 2] and positive at every other index. *)
Theorem vect_zero_only_at_middle (self s : Source) (g : Grid) (i : nat) :
  register_grid self g = Ok s ->
  (i < length (vect s))%nat ->
  exists d : Z,
    nth i (vect s) NaN = Fin (IZR d) /\
    d = sq_dist (nth i (zip3 (x s) (y s) (z s)) origin)
                (nth (length (vect s) / 2) (zip3 (x s) (y s) (z s)) origin) /\
    (0 <= d)%Z /\
    (d = 0%Z <-> i = (length (vect s) / 2)%nat).
Proof.
  intros Hreg Hi.
  destruct (registered_lengths self s g Hreg) as (HL & _ & _ & _ & Hvl & _).
  destruct (registered_profile self s g Hreg) as (Hnd & Hv & _).
  set (coords := zip3 (x s) (y s) (z s)) in *.
  rewrite Hvl in *.
  exists (spec_d coords i). split.
  - rewrite Hv.
    rewrite (nth_map_in (fun k => Fin (IZR (spec_d coords k))) _ _ _ 0%nat)
      by (rewrite length_seq; exact Hi).
    rewrite seq_nth by exact Hi. reflexivity.
  - split; [reflexivity|]. split; [apply spec_d_nonneg|]. split.
    + intros H0. unfold spec_d in H0. apply sq_dist_zero in H0.
      rewrite NoDup_nth in Hnd. apply Hnd; [exact Hi | | exact H0].
      apply Nat.div_lt; lia.
    + intros ->. apply spec_d_middle.
Qed.

Lemma vect_zero_only_at_middle_witness :
  exists d : Z, nth 0 (vect (registered line4 grid4)) NaN = Fin (IZR d) /\
                (0 <= d)%Z.
Proof.
  destruct (vect_zero_only_at_middle line4 (registered line4 grid4) grid4 0)
    as (d & Hd & _ & Hnn & _); [reflexivity | simpl; lia |].
  exists d. split; assumption.
Defined.

(** ** Indices counted from the end *)


(** ** The samples and rounding *)






(** ** The waveform and rounding *)

Lemma get_location_exact_backend (p q : point) :
  _get_location p q = _get_location_with linspace array_int p q.
Proof. reflexivity. Qed.







